(** * vscode-timeline-extractor: timeline index and reconstruction engine

    A shallow embedding of the extension's data models ([models.ts]), its
    utilities ([utils.ts]) and the extractor ([extractor.ts]), followed by
    the properties of the index and of directory reconstruction.

    Conventions of the embedding:
    - a JavaScript [number] holding a timestamp is a [Z] (milliseconds);
    - [undefined] results are [option]s, thrown exceptions are [Throw];
    - the insertion-ordered [Map<string, TimelineFile>] is a list of
      pairs in insertion order, updated by [JS.map_set];
    - Node's [path], [fs], [Date], [URL], [JSON] and [crypto] are interfaces
      (type classes); a POSIX, in-memory instance is given for evaluation. *)

From Stdlib Require Import ZArith List String Ascii Bool Lia DecimalString.
From Stdlib Require Import Permutation Sorted.
Import ListNotations.

Local Open Scope string_scope.
Local Open Scope Z_scope.
Local Open Scope list_scope.

(* ================================================================== *)
(** ** JavaScript primitives used by the sources *)

Module JS.

(** [s.startsWith(p)] *)
Definition startsWith (s p : string) : bool := String.prefix p s.

(** [s.endsWith(p)] *)
Definition endsWith (s p : string) : bool :=
  let n := String.length s in
  let m := String.length p in
  ((m <=? n)%nat && String.eqb (String.substring (n - m) m s) p)%bool.

(** [s.length] *)
Definition length (s : string) : nat := String.length s.

(** [s.slice(n)] for [0 <= n]. *)
Definition slice (s : string) (n : nat) : string :=
  String.substring n (String.length s - n) s.

(** [Map.prototype.set]: an existing key keeps its position and takes the
    new value, a new key goes last. *)
Fixpoint map_set {V : Type} (m : list (string * V)) (k : string) (v : V)
  : list (string * V) :=
  match m with
  | [] => [(k, v)]
  | (k', v') :: m' =>
      if String.eqb k' k then (k, v) :: m' else (k', v') :: map_set m' k v
  end.

(** [Map.prototype.get] *)
Fixpoint map_get {V : Type} (m : list (string * V)) (k : string) : option V :=
  match m with
  | [] => None
  | (k', v') :: m' => if String.eqb k' k then Some v' else map_get m' k
  end.

(** [Map.prototype.has] *)
Definition map_has {V : Type} (m : list (string * V)) (k : string) : bool :=
  match map_get m k with Some _ => true | None => false end.

(** [Map.prototype.size] *)
Definition map_size {V : Type} (m : list (string * V)) : nat := List.length m.

(** [arr.sort(cmp)]: the standard requires the sort to be stable, so for
    a comparator that orders by a key the result is the one stable
    arrangement; inserting from the right computes it. *)
Fixpoint sort_insert {A : Type} (cmp : A -> A -> Z) (x : A) (l : list A)
  : list A :=
  match l with
  | [] => [x]
  | y :: l' => if (cmp x y <=? 0)%Z then x :: l else y :: sort_insert cmp x l'
  end.

Definition sort {A : Type} (cmp : A -> A -> Z) (l : list A) : list A :=
  fold_right (sort_insert cmp) [] l.

End JS.

(* ================================================================== *)
(** ** models.ts: the data interfaces *)

Module FileEntry.

(** [interface FileEntry] *)
Record t : Type := mk {
  id : string;
  timestamp : Z;
  source : option string;
  sourceDescription : option string
}.

End FileEntry.

Module FileMetadata.

(** [interface FileMetadata] *)
Record t : Type := mk {
  originalPath : string;
  relativePath : string;
  entryId : string;
  timestamp : Z;
  datetime : string;
  source : option string;
  sourceDescription : option string;
  hash : option string
}.

(** [metadata.relativePath = relativePath] *)
Definition set_relativePath (m : t) (p : string) : t :=
  mk (originalPath m) p (entryId m) (timestamp m) (datetime m)
     (source m) (sourceDescription m) (hash m).

End FileMetadata.

Module ReconstructionResult.

(** [interface ReconstructionResult] *)
Record t : Type := mk {
  success : bool;
  outputDirectory : option string;
  filesProcessed : nat;
  files : list string;
  errors : list (string * string);
  reconstructedAt : option string;
  skippedFiles : option nat;
  error : option string
}.

End ReconstructionResult.

(** The document [exportMetadata] serialises. *)
Module MetadataDoc.

Record t : Type := mk {
  version : Z;
  sourceDirectory : string;
  extractionTime : string;
  totalFiles : nat;
  files : list FileMetadata.t;
  reconstructedAt : option string
}.

End MetadataDoc.

(** What [JSON.parse] of an [entries.json] delivers, field by field;
    a missing or [undefined] field is [None]. *)
Module Manifest.

Record entry : Type := mk_entry {
  entry_id : option string;
  entry_timestamp : option Z;
  entry_source : option string;
  entry_sourceDescription : option string
}.

Record t : Type := mk {
  resource : option string;
  entries : option (list entry)
}.

End Manifest.

(** [fs.Dirent] *)
Module Dirent.

Record t : Type := mk {
  name : string;
  isDirectory : bool
}.

End Dirent.

(* ================================================================== *)
(** ** Exceptions and numbers *)

(** Outcome of a call that may throw; [Throw] carries [String(e)]. *)
Inductive Res (A : Type) : Type :=
| Ok (a : A)
| Throw (e : string).
Arguments Ok {A} a.
Arguments Throw {A} e.

(** The JavaScript numbers that occur here: integer-valued doubles, the
    infinities and [NaN] (negative zero is identified with zero). *)
Inductive jsnum : Type :=
| NaN
| Num (z : Z)
| Inf (negative : bool).

Module Number.

(** IEEE-754 binary64 rounding (nearest, ties to even) of a non-negative
    integer: 53 significant bits, overflow to infinity from [2^1024]. *)
Definition round_nonneg (v : Z) : jsnum :=
  if v <? 2 ^ 53 then Num v
  else
    let e := Z.log2 v - 52 in
    let q := v / 2 ^ e in
    let r := v mod 2 ^ e in
    let half := 2 ^ (e - 1) in
    let q' := if r <? half then q
              else if half <? r then q + 1
              else if Z.even q then q else q + 1 in
    let res := q' * 2 ^ e in
    if 2 ^ 1024 <=? res then Inf false else Num res.

Definition negate (x : jsnum) : jsnum :=
  match x with
  | NaN => NaN
  | Num z => Num (- z)
  | Inf s => Inf (negb s)
  end.

(** The double nearest to an integer: what [parseInt] and [*] deliver. *)
Definition round_double (v : Z) : jsnum :=
  if v <? 0 then negate (round_nonneg (- v)) else round_nonneg v.

(** [isNaN(x)] *)
Definition isNaN (x : jsnum) : bool :=
  match x with NaN => true | _ => false end.

(** [x < k] for an integer literal [k]. *)
Definition ltb (x : jsnum) (k : Z) : bool :=
  match x with
  | NaN => false
  | Num z => z <? k
  | Inf s => s
  end.

(** [x * k] for a positive integer literal [k]. *)
Definition mul (x : jsnum) (k : Z) : jsnum :=
  match x with
  | NaN => NaN
  | Num z => round_double (z * k)
  | Inf s => Inf s
  end.

Definition is_digit (c : ascii) : bool :=
  ((48 <=? nat_of_ascii c) && (nat_of_ascii c <=? 57))%nat.

Definition digit_value (c : ascii) : Z := Z.of_nat (nat_of_ascii c) - 48.

(** Strings are byte strings; white space is the ASCII part of
    JavaScript's [WhiteSpace] and [LineTerminator]. *)
Definition is_space (c : ascii) : bool :=
  let n := nat_of_ascii c in
  ((n =? 32) || ((9 <=? n) && (n <=? 13)))%nat.

Fixpoint trimStart (s : string) : string :=
  match s with
  | String c r => if is_space c then trimStart r else s
  | EmptyString => s
  end.

(** Value of the longest prefix of decimal digits, read left to right. *)
Fixpoint digits_value (acc : Z) (s : string) : Z :=
  match s with
  | String c r => if is_digit c then digits_value (10 * acc + digit_value c) r
                  else acc
  | EmptyString => acc
  end.

Definition starts_with_digit (s : string) : bool :=
  match s with String c _ => is_digit c | EmptyString => false end.

(** [parseInt(s, 10)]: optional white space and sign, then the longest
    run of digits, whose decimal value is rounded to the nearest double
    (the standard lets an engine drop the digits after the 20th; V8
    rounds the exact value); [NaN] when there is no digit. *)
Definition parseInt (s : string) : jsnum :=
  let s1 := trimStart s in
  let '(negative, s2) :=
    match s1 with
    | String "-" r => (true, r)
    | String "+" r => (false, r)
    | _ => (false, s1)
    end in
  if starts_with_digit s2
  then (if negative then negate (round_double (digits_value 0 s2))
        else round_double (digits_value 0 s2))
  else NaN.

Fixpoint forall_chars (p : ascii -> bool) (s : string) : bool :=
  match s with
  | String c r => p c && forall_chars p r
  | EmptyString => true
  end.

(** [s.match(/^\d+$/)] as a truth value. *)
Definition all_digits (s : string) : bool :=
  match s with
  | EmptyString => false
  | _ => forall_chars is_digit s
  end.

(** [String(n)] of an integer, as a template literal renders it. *)
Definition toString (z : Z) : string :=
  if z <? 0
  then ("-" ++ NilZero.string_of_uint (N.to_uint (Z.to_N (- z))))%string
  else NilZero.string_of_uint (N.to_uint (Z.to_N z)).

End Number.

(* ================================================================== *)
(** ** The host: Node's [Date], [URL], [path] and [fs] *)

(** [Date]: parsing and construction deliver time values (integers, or
    [NaN] for an invalid date). *)
Class DateApi : Type := {
  (** [new Date(s).getTime()] *)
  Date_parse : string -> jsnum;
  (** [new Date(year, monthIndex, day).getTime()], local time *)
  Date_local : Z -> Z -> Z -> jsnum;
  (** [new Date(ms).toISOString()], a [RangeError] outside the time range *)
  Date_toISOString : Z -> Res string
}.

(** [URL] and [decodeURIComponent], as [decodeFileUri] uses them. *)
Class UrlApi : Type := {
  (** [decodeURIComponent(new URL(uri).pathname)]; either call may throw *)
  URL_decoded_pathname : string -> Res string
}.

(** [path] *)
Class PathApi : Type := {
  path_sep : string;
  path_resolve : string -> string;
  path_relative : string -> string -> Res string;
  path_join : string -> string -> string;
  path_dirname : string -> string
}.

(** [os] and [process.env] *)
Class OsApi : Type := {
  (** [os.platform()] *)
  os_platform : string;
  (** [os.homedir()] *)
  os_homedir : string;
  (** [process.env[key]] *)
  process_env : string -> option string
}.

(** [fs], [JSON], [crypto] and the clock, over an abstract state of the
    machine.  Reads are functions of the state; writes deliver the next
    state, also when they throw. *)
Class FsApi (World : Type) : Type := {
  (** [fs.readdirSync(p, { withFileTypes: true })] *)
  fs_readdirSync : World -> string -> Res (list Dirent.t);
  (** [fs.existsSync(p)] *)
  fs_existsSync : World -> string -> bool;
  (** [JSON.parse(fs.readFileSync(p, 'utf-8'))], read as a manifest; a
      read error, a syntax error or an ill-typed document is a [Throw] *)
  fs_readManifest : World -> string -> Res Manifest.t;
  (** [fs.mkdirSync(p, { recursive: true })] *)
  fs_mkdirSync : World -> string -> World * Res unit;
  (** [fs.copyFileSync(source, destination)] *)
  fs_copyFileSync : World -> string -> string -> World * Res unit;
  (** [fs.writeFileSync(p, JSON.stringify(doc, null, 2), 'utf-8')] *)
  fs_writeMetadata : World -> string -> MetadataDoc.t -> World * Res unit;
  (** [crypto.createHash(algorithm).update(fs.readFileSync(p)).digest('hex')] *)
  fs_hashFile : World -> string -> string -> Res string;
  (** [new Date().toISOString()] *)
  Date_now_ISOString : World -> string
}.

(* ================================================================== *)
(** ** Effects: a state and exception monad *)

Definition Eff (S A : Type) : Type := S -> S * Res A.

Definition ret {S A : Type} (a : A) : Eff S A := fun s => (s, Ok a).

Definition throw {S A : Type} (e : string) : Eff S A := fun s => (s, Throw e).

Definition bind {S A B : Type} (m : Eff S A) (k : A -> Eff S B) : Eff S B :=
  fun s =>
    match m s with
    | (s', Ok a) => k a s'
    | (s', Throw e) => (s', Throw e)
    end.

(** [try { m } catch (e) { h(String(e)) }] *)
Definition try_catch {S A : Type} (m : Eff S A) (h : string -> Eff S A)
  : Eff S A :=
  fun s =>
    match m s with
    | (s', Ok a) => (s', Ok a)
    | (s', Throw e) => h e s'
    end.

Definition gets {S A : Type} (f : S -> A) : Eff S A := fun s => (s, Ok (f s)).

Definition modify {S : Type} (f : S -> S) : Eff S unit := fun s => (f s, Ok tt).

(** A pure call that may throw. *)
Definition lift_res {S A : Type} (r : Res A) : Eff S A := fun s => (s, r).

Declare Scope eff_scope.
Delimit Scope eff_scope with eff.
Notation "x <- m ;; k" := (bind m (fun x => k))
  (at level 61, m at next level, right associativity) : eff_scope.
Notation "m ;; k" := (bind m (fun _ => k))
  (at level 61, right associativity) : eff_scope.
Local Open Scope eff_scope.

(** [for (const x of l) { acc = body(acc, x) }] with effects. *)
Fixpoint for_of {S A B : Type} (body : B -> A -> Eff S B) (l : list A) (acc : B)
  : Eff S B :=
  match l with
  | [] => ret acc
  | x :: l' => acc' <- body acc x ;; for_of body l' acc'
  end.

(* ================================================================== *)
(** ** constants.ts and utils.ts *)

Definition METADATA_FILENAME : string := "timeline_metadata.json".
Definition ENTRIES_FILENAME : string := "entries.json".
Definition METADATA_VERSION : Z := 1.

(** [DEFAULT_TIMELINE_PATHS[osKey]] *)
Definition DEFAULT_TIMELINE_PATHS (osKey : string) : list string :=
  if String.eqb osKey "darwin" then
    ["~/Library/Application Support/Code/User/History";
     "~/Library/Application Support/Code - Insiders/User/History";
     "~/Library/Application Support/VSCodium/User/History"]
  else if String.eqb osKey "linux" then
    ["~/.config/Code/User/History";
     "~/.config/Code - Insiders/User/History";
     "~/.config/VSCodium/User/History"]
  else if String.eqb osKey "win32" then
    ["%APPDATA%/Code/User/History";
     "%APPDATA%/Code - Insiders/User/History";
     "%APPDATA%/VSCodium/User/History"]
  else [].

Module Utils.

(** [timestampStr.match(/^(\d{4})-(\d{2})-(\d{2})$/)]: the three groups. *)
Definition match_date_only (s : string) : option (string * string * string) :=
  match s with
  | String y1 (String y2 (String y3 (String y4 (String "-"
    (String m1 (String m2 (String "-"
    (String d1 (String d2 EmptyString))))))))) =>
      if forallb Number.is_digit [y1; y2; y3; y4; m1; m2; d1; d2]
      then Some (String y1 (String y2 (String y3 (String y4 EmptyString))),
                 String m1 (String m2 EmptyString),
                 String d1 (String d2 EmptyString))
      else None
  | _ => None
  end.

Definition unable_to_parse (timestampStr : string) : string :=
  "Error: Unable to parse timestamp: " ++ timestampStr ++ ". " ++
  "Expected ISO format (2025-06-27T14:30:00), date (2025-06-27), " ++
  "or Unix timestamp.".

(** [parseTimestamp(timestampStr)] *)
Definition parseTimestamp `{DateApi} (timestampStr : string) : Res jsnum :=
  let numericValue := Number.parseInt timestampStr in
  if negb (Number.isNaN numericValue) && Number.all_digits timestampStr then
    if Number.ltb numericValue 4102444800
    then Ok (Number.mul numericValue 1000)
    else Ok numericValue
  else
    let date := Date_parse timestampStr in
    if negb (Number.isNaN date) then Ok date
    else
      match match_date_only timestampStr with
      | Some (year, month, day) =>
          match Number.parseInt year, Number.parseInt month,
                Number.parseInt day with
          | Num y, Num m, Num d => Ok (Date_local y (m - 1) d)
          | _, _, _ => Ok NaN
          end
      | None => Throw (unable_to_parse timestampStr)
      end.

(** [formatTimestamp(timestampMs)] *)
Definition formatTimestamp `{DateApi} (timestampMs : Z) : Res string :=
  Date_toISOString timestampMs.

(** [decodeFileUri(uri)] *)
Definition decodeFileUri `{UrlApi} (uri : string) : string :=
  match URL_decoded_pathname uri with
  | Ok p => p
  | Throw _ => uri
  end.

Section WithWorld.

Context {World : Type} `{FsApi World} `{PathApi}.

(** [computeFileHash(filePath, algorithm = 'sha256')] *)
Definition computeFileHash (filePath : string) : Eff World (option string) :=
  exists_ <- gets (fun w => fs_existsSync w filePath) ;;
  if negb exists_ then ret None
  else
    digest <- (fun w => (w, fs_hashFile w "sha256" filePath)) ;;
    ret (Some digest).

(** [ensureDirectoryExists(dirPath)] *)
Definition ensureDirectoryExists (dirPath : string) : Eff World unit :=
  exists_ <- gets (fun w => fs_existsSync w dirPath) ;;
  if negb exists_ then (fun w => fs_mkdirSync w dirPath)
  else ret tt.

(** [copyFile(source, destination)] *)
Definition copyFile (source destination : string) : Eff World unit :=
  let destDir := path_dirname destination in
  ensureDirectoryExists destDir ;;
  (fun w => fs_copyFileSync w source destination).

End WithWorld.

(** [`${count} ${unit}${count > 1 ? 's' : ''} ago`] *)
Definition ago (count : Z) (unit_ : string) : string :=
  (Number.toString count ++ " " ++ unit_
   ++ (if count >? 1 then "s" else "") ++ " ago")%string.

(** [getRelativeTime(timestampMs)], with the reading [now] of [Date.now()]. *)
Definition getRelativeTime (now timestampMs : Z) : string :=
  let diff := now - timestampMs in
  let seconds := diff / 1000 in
  let minutes := seconds / 60 in
  let hours := minutes / 60 in
  let days := hours / 24 in
  let weeks := days / 7 in
  let months := days / 30 in
  let years := days / 365 in
  if years >? 0 then ago years "year"
  else if months >? 0 then ago months "month"
  else if weeks >? 0 then ago weeks "week"
  else if days >? 0 then ago days "day"
  else if hours >? 0 then ago hours "hour"
  else if minutes >? 0 then ago minutes "minute"
  else "Just now".

(** A string without a percent sign. *)
Definition no_percent (s : string) : bool :=
  Number.forall_chars (fun c => negb (Ascii.eqb c "%")) s.

Section WithOs.

Context `{OsApi} `{PathApi}.

(** [expandUserPath(filePath)] *)
Definition expandUserPath (filePath : string) : string :=
  if JS.startsWith filePath "~"
  then path_join os_homedir (JS.slice filePath 1)
  else filePath.

(** The replacement [(_, key) => process.env[key] || ''] *)
Definition env_value (key : string) : string :=
  match process_env key with
  | Some v => v
  | None => ""
  end.

(** [filePath.replace(/%([^%]+)%/g, ...)], read left to right: [pending]
    holds, in reverse, the characters seen since an opening [%] that still
    waits for its closing one. *)
Fixpoint expand_scan (s : string) (pending : option (list ascii)) : string :=
  match s, pending with
  | EmptyString, None => EmptyString
  | EmptyString, Some key => String "%" (string_of_list_ascii (rev key))
  | String c r, None =>
      if Ascii.eqb c "%" then expand_scan r (Some [])
      else String c (expand_scan r None)
  | String c r, Some key =>
      if Ascii.eqb c "%" then
        match key with
        | [] => String "%" (expand_scan r (Some []))
        | _ => (env_value (string_of_list_ascii (rev key))
                ++ expand_scan r None)%string
        end
      else expand_scan r (Some (c :: key))
  end.

(** [expandEnvVars(filePath)] *)
Definition expandEnvVars (filePath : string) : string :=
  expand_scan filePath None.

End WithOs.

End Utils.

(* ================================================================== *)
(** ** models.ts: [class TimelineFile] *)

Module TimelineFile.

(** The stored fields of [class TimelineFile]. *)
Record t : Type := mk {
  originalPath : string;
  timelineDir : string;
  entries : list FileEntry.t
}.

(** The callback of both [reduce] calls that look for the most recent
    entry: [(latest, entry) => entry.timestamp > latest.timestamp ? entry : latest]. *)
Definition newer (latest entry : FileEntry.t) : FileEntry.t :=
  if FileEntry.timestamp entry >? FileEntry.timestamp latest
  then entry else latest.

(** [(oldest, entry) => entry.timestamp < oldest.timestamp ? entry : oldest] *)
Definition older (oldest entry : FileEntry.t) : FileEntry.t :=
  if FileEntry.timestamp entry <? FileEntry.timestamp oldest
  then entry else oldest.

(** [arr.reduce(cb)] without an initial value, behind the source's
    [length === 0] guard: the accumulator starts at the first element. *)
Definition reduce_guarded (cb : FileEntry.t -> FileEntry.t -> FileEntry.t)
           (arr : list FileEntry.t) : option FileEntry.t :=
  match arr with
  | [] => None
  | first :: rest => Some (fold_left cb rest first)
  end.

(** [get latestEntry()] *)
Definition latestEntry (f : t) : option FileEntry.t :=
  reduce_guarded newer (entries f).

(** [get oldestEntry()] *)
Definition oldestEntry (f : t) : option FileEntry.t :=
  reduce_guarded older (entries f).

(** [get versionCount()] *)
Definition versionCount (f : t) : nat := List.length (entries f).

(** [getEntryAtTimestamp(targetTimestamp)] *)
Definition getEntryAtTimestamp (f : t) (targetTimestamp : Z)
  : option FileEntry.t :=
  let validEntries :=
    filter (fun e => FileEntry.timestamp e <=? targetTimestamp) (entries f) in
  reduce_guarded newer validEntries.

(** The choice between an entry and the winner of the entries after it:
    the later one only when it is strictly newer. *)
Definition pick (x : FileEntry.t) (later : option FileEntry.t) : FileEntry.t :=
  match later with
  | Some m => if FileEntry.timestamp m >? FileEntry.timestamp x then m else x
  | None => x
  end.

(** The comparator of [sortedEntries]: [(a, b) => b.timestamp - a.timestamp]. *)
Definition by_newest (a b : FileEntry.t) : Z :=
  FileEntry.timestamp b - FileEntry.timestamp a.

(** [get sortedEntries()] *)
Definition sortedEntries (f : t) : list FileEntry.t :=
  JS.sort by_newest (entries f).

Section WithHost.

Context {World : Type} `{FsApi World} `{PathApi} `{UrlApi} `{DateApi}.

(** [get relativePath()] *)
Definition relativePath (f : t) : string :=
  Utils.decodeFileUri (originalPath f).

(** [getFileContentPath(entry)] *)
Definition getFileContentPath (f : t) (entry : FileEntry.t) : string :=
  path_join (timelineDir f) (FileEntry.id entry).

(** [toMetadataDict(entry)]: the fields are computed in the order of
    the object literal, [datetime] before [hash]. *)
Definition toMetadataDict (f : t) (entry : FileEntry.t)
  : Eff World FileMetadata.t :=
  let contentPath := getFileContentPath f entry in
  datetime <- lift_res (Utils.formatTimestamp (FileEntry.timestamp entry)) ;;
  hash <- Utils.computeFileHash contentPath ;;
  ret (FileMetadata.mk (relativePath f) (relativePath f)
         (FileEntry.id entry) (FileEntry.timestamp entry) datetime
         (FileEntry.source entry) (FileEntry.sourceDescription entry)
         hash).

End WithHost.

End TimelineFile.

(** The object [getStatistics] returns; an extreme is a path with a
    timestamp, or [null]. *)
Module Statistics.

Record t : Type := mk {
  timelinePath : string;
  totalFiles : nat;
  totalVersions : nat;
  oldestEntry : option (string * Z);
  newestEntry : option (string * Z)
}.

End Statistics.

(* ================================================================== *)
(** ** extractor.ts: [class VSCodeTimelineExtractor]

    The object's fields and the machine form the state; every method is a
    computation over it.  Writing to the output channel ([log]) is left
    out: it neither throws nor is read back. *)

Module Extractor.

(** The fields of the class. *)
Record t : Type := mk {
  timelinePath : string;
  timelineFiles : list (string * TimelineFile.t);
  scanned : bool
}.

(** The object returned by [processFileForReconstruction]. *)
Inductive FileOutcome : Type :=
| Processed (relativePath : string) (metadata : option FileMetadata.t)
| Skipped
| Errored (file error : string).

(** The four arrays [reconstructDirectory] fills in its loop. *)
Record Acc : Type := mkAcc {
  processedFiles : list string;
  skippedFiles : list string;
  errors : list (string * string);
  metadataEntries : list FileMetadata.t
}.

Definition empty_acc : Acc := mkAcc [] [] [] [].

(** The [if / else if] chain on [result.status], with [push]. *)
Definition collect (acc : Acc) (filePath : string) (result : FileOutcome) : Acc :=
  match result with
  | Processed relativePath metadata =>
      mkAcc (processedFiles acc ++ [relativePath]) (skippedFiles acc)
            (errors acc)
            (match metadata with
             | Some m => metadataEntries acc ++ [m]
             | None => metadataEntries acc
             end)
  | Skipped =>
      mkAcc (processedFiles acc) (skippedFiles acc ++ [filePath])
            (errors acc) (metadataEntries acc)
  | Errored file error =>
      mkAcc (processedFiles acc) (skippedFiles acc)
            (errors acc ++ [(file, error)]) (metadataEntries acc)
  end.

(** The pushes of [b] after those of [a]. *)
Definition acc_app (a b : Acc) : Acc :=
  mkAcc (processedFiles a ++ processedFiles b)
        (skippedFiles a ++ skippedFiles b)
        (errors a ++ errors b)
        (metadataEntries a ++ metadataEntries b).

(** [s.replace(/^[/\\]/, '')] *)
Definition strip_leading_separator (s : string) : string :=
  match s with
  | String "/" r => r
  | String "\" r => r
  | _ => s
  end.

Section WithHost.

Context {World : Type} `{FsApi World} `{PathApi} `{UrlApi} `{DateApi}.

Record State : Type := mkState {
  this : t;
  world : World
}.

(** A computation on the machine alone, run inside a method. *)
Definition on_world {A : Type} (m : Eff World A) : Eff State A :=
  fun s => let '(w, r) := m (world s) in (mkState (this s) w, r).

(** The state after [this.timelineFiles] has become [m]. *)
Definition with_timelineFiles (m : list (string * TimelineFile.t))
           (s : State) : State :=
  mkState (mk (timelinePath (this s)) m (scanned (this s))) (world s).

(** The state after [this.scanned = b]. *)
Definition with_scanned (b : bool) (s : State) : State :=
  mkState (mk (timelinePath (this s)) (timelineFiles (this s)) b) (world s).

Definition set_timelineFiles (m : list (string * TimelineFile.t))
  : Eff State unit :=
  modify (with_timelineFiles m).

Definition set_scanned (b : bool) : Eff State unit :=
  modify (with_scanned b).

(** [parseEntriesFile(entriesFile, timelineDir)] *)
Definition parseEntriesFile (entriesFile timelineDir : string)
  : Eff State (option TimelineFile.t) :=
  data <- (fun s => (s, fs_readManifest (world s) entriesFile)) ;;
  match Manifest.resource data with
  | None => ret None
  | Some EmptyString => ret None
  | Some resource =>
      let entriesData :=
        match Manifest.entries data with Some l => l | None => [] end in
      let entries :=
        map (fun entry =>
               FileEntry.mk
                 (match Manifest.entry_id entry with
                  | Some i => i | None => "" end)
                 (match Manifest.entry_timestamp entry with
                  | Some n => n | None => 0 end)
                 (Manifest.entry_source entry)
                 (Manifest.entry_sourceDescription entry))
            entriesData in
      ret (Some (TimelineFile.mk resource timelineDir entries))
  end.

(** The body of the loop of [scanTimeline]. *)
Definition scan_item (item : Dirent.t) : Eff State unit :=
  if negb (Dirent.isDirectory item) then ret tt
  else
    root <- gets (fun s => timelinePath (this s)) ;;
    let timelineDir := path_join root (Dirent.name item) in
    let entriesFile := path_join timelineDir ENTRIES_FILENAME in
    exists_ <- gets (fun s => fs_existsSync (world s) entriesFile) ;;
    if negb exists_ then ret tt
    else
      try_catch
        (timelineFile <- parseEntriesFile entriesFile timelineDir ;;
         match timelineFile with
         | Some f =>
             files <- gets (fun s => timelineFiles (this s)) ;;
             set_timelineFiles
               (JS.map_set files (TimelineFile.relativePath f) f)
         | None => ret tt
         end)
        (fun _ => ret tt).

(** [scanTimeline()] *)
Definition scanTimeline : Eff State nat :=
  set_timelineFiles [] ;;
  root <- gets (fun s => timelinePath (this s)) ;;
  items <- (fun s => (s, fs_readdirSync (world s) root)) ;;
  for_of (fun _ item => scan_item item) items tt ;;
  set_scanned true ;;
  gets (fun s => JS.map_size (timelineFiles (this s))).

(** [ensureScanned()] *)
Definition ensureScanned : Eff State unit :=
  scanned_ <- gets (fun s => scanned (this s)) ;;
  if negb scanned_ then (scanTimeline ;; ret tt) else ret tt.

(** [refresh()] *)
Definition refresh : Eff State nat :=
  set_scanned false ;;
  scanTimeline.

(** [getAllFiles()] *)
Definition getAllFiles : Eff State (list (string * TimelineFile.t)) :=
  ensureScanned ;;
  gets (fun s => timelineFiles (this s)).

(** The test of the loop of [filterByDirectory]. *)
Definition directory_test (normalizedDir dirWithSlash filePath : string) : bool :=
  JS.startsWith filePath dirWithSlash || JS.startsWith filePath normalizedDir.

(** The body of the loop of [filterByDirectory]. *)
Definition filter_step (normalizedDir dirWithSlash : string)
           (matching : list (string * TimelineFile.t))
           (kv : string * TimelineFile.t) : list (string * TimelineFile.t) :=
  let '(filePath, timelineFile) := kv in
  if directory_test normalizedDir dirWithSlash filePath
  then JS.map_set matching filePath timelineFile
  else matching.

(** The loop of [filterByDirectory], from an empty [matching]. *)
Definition matching_files (normalizedDir dirWithSlash : string)
           (files : list (string * TimelineFile.t))
  : list (string * TimelineFile.t) :=
  fold_left (filter_step normalizedDir dirWithSlash) files [].

(** [filterByDirectory(directoryPath)] *)
Definition filterByDirectory (directoryPath : string)
  : Eff State (list (string * TimelineFile.t)) :=
  ensureScanned ;;
  let normalizedDir := path_resolve directoryPath in
  let dirWithSlash :=
    if JS.endsWith normalizedDir path_sep then normalizedDir
    else (normalizedDir ++ path_sep)%string in
  files <- gets (fun s => timelineFiles (this s)) ;;
  ret (matching_files normalizedDir dirWithSlash files).

(** [calculateRelativePath(filePath, sourcePath)] *)
Definition calculateRelativePath (filePath sourcePath : string) : option string :=
  match path_relative sourcePath filePath with
  | Ok relative =>
      if JS.startsWith relative ".." then None else Some relative
  | Throw _ =>
      if JS.startsWith filePath sourcePath
      then Some (strip_leading_separator
                   (JS.slice filePath (JS.length sourcePath)))
      else None
  end.

(** The choice of the entry at the head of [processFileForReconstruction]:
    at the instant when one is given, the latest otherwise. *)
Definition resolve_version (timelineFile : TimelineFile.t)
           (atTimestamp : option Z) : option FileEntry.t :=
  match atTimestamp with
  | Some targetTimestamp =>
      TimelineFile.getEntryAtTimestamp timelineFile targetTimestamp
  | None => TimelineFile.latestEntry timelineFile
  end.

(** The [try] block of [processFileForReconstruction]. *)
Definition process_file_body (filePath : string) (timelineFile : TimelineFile.t)
           (sourcePath outputPath : string) (atTimestamp : option Z)
           (exportMetadata : bool) : Eff World FileOutcome :=
  match resolve_version timelineFile atTimestamp with
  | None => ret Skipped
  | Some entry =>
      match calculateRelativePath filePath sourcePath with
      | None => ret Skipped
      | Some EmptyString => ret Skipped
      | Some relativePath =>
          let destPath := path_join outputPath relativePath in
          let sourceFile := TimelineFile.getFileContentPath timelineFile entry in
          exists_ <- gets (fun w => fs_existsSync w sourceFile) ;;
          if negb exists_ then
            ret (Errored filePath
                   ("Source file not found: " ++ sourceFile)%string)
          else
            Utils.copyFile sourceFile destPath ;;
            if exportMetadata then
              metadata <- TimelineFile.toMetadataDict timelineFile entry ;;
              ret (Processed relativePath
                     (Some (FileMetadata.set_relativePath metadata relativePath)))
            else ret (Processed relativePath None)
      end
  end.

(** [processFileForReconstruction(...)] *)
Definition processFileForReconstruction (filePath : string)
           (timelineFile : TimelineFile.t) (sourcePath outputPath : string)
           (atTimestamp : option Z) (exportMetadata : bool)
  : Eff World FileOutcome :=
  try_catch
    (process_file_body filePath timelineFile sourcePath outputPath
       atTimestamp exportMetadata)
    (fun e => ret (Errored filePath e)).

(** [exportMetadata(outputPath, sourceDirectory, metadataEntries, atTimestamp)] *)
Definition exportMetadata (outputPath sourceDirectory : string)
           (metadataEntries : list FileMetadata.t) (atTimestamp : option Z)
  : Eff World unit :=
  let metadataFile := path_join outputPath METADATA_FILENAME in
  extractionTime <- gets Date_now_ISOString ;;
  reconstructedAt <-
    match atTimestamp with
    | Some t0 => iso <- lift_res (Utils.formatTimestamp t0) ;; ret (Some iso)
    | None => ret None
    end ;;
  (fun w =>
     fs_writeMetadata w metadataFile
       (MetadataDoc.mk METADATA_VERSION sourceDirectory extractionTime
          (List.length metadataEntries) metadataEntries reconstructedAt)).

(** The loop of [reconstructDirectory] over the matching files. *)
Definition reconstruct_loop (matchingFiles : list (string * TimelineFile.t))
           (sourcePath outputDirectory : string) (atTimestamp : option Z)
           (exportMetadata_ : bool) (acc : Acc) : Eff World Acc :=
  for_of
    (fun acc '(filePath, timelineFile) =>
       result <- processFileForReconstruction filePath timelineFile
                   sourcePath outputDirectory atTimestamp exportMetadata_ ;;
       ret (collect acc filePath result))
    matchingFiles acc.

Definition no_files_found (sourceDirectory : string) : string :=
  ("No files found for directory: " ++ sourceDirectory)%string.

(** [reconstructDirectory] from the test of [matchingFiles.size] on. *)
Definition reconstruct_matching (sourceDirectory outputDirectory : string)
           (exportMetadata_ : bool) (atTimestamp : option Z)
           (matchingFiles : list (string * TimelineFile.t))
  : Eff State ReconstructionResult.t :=
  if (JS.map_size matchingFiles =? 0)%nat then
    ret (ReconstructionResult.mk false None 0 [] [] None None
           (Some (no_files_found sourceDirectory)))
  else
    on_world (Utils.ensureDirectoryExists outputDirectory) ;;
    let sourcePath := path_resolve sourceDirectory in
    acc <- on_world (reconstruct_loop matchingFiles sourcePath
                       outputDirectory atTimestamp exportMetadata_
                       empty_acc) ;;
    (if exportMetadata_ && (0 <? List.length (metadataEntries acc))%nat
     then on_world (exportMetadata outputDirectory sourceDirectory
                      (metadataEntries acc) atTimestamp)
     else ret tt) ;;
    match atTimestamp with
    | Some t0 =>
        reconstructedAt <- lift_res (Utils.formatTimestamp t0) ;;
        ret (ReconstructionResult.mk true (Some outputDirectory)
               (List.length (processedFiles acc)) (processedFiles acc)
               (errors acc) (Some reconstructedAt)
               (Some (List.length (skippedFiles acc))) None)
    | None =>
        ret (ReconstructionResult.mk true (Some outputDirectory)
               (List.length (processedFiles acc)) (processedFiles acc)
               (errors acc) None None None)
    end.

(** [reconstructDirectory(sourceDirectory, outputDirectory,
    exportMetadata = true, atTimestamp?)]; the flag is written
    [exportMetadata_] beside the method of the same name. *)
Definition reconstructDirectory (sourceDirectory outputDirectory : string)
           (exportMetadata_ : bool) (atTimestamp : option Z)
  : Eff State ReconstructionResult.t :=
  ensureScanned ;;
  matchingFiles <- filterByDirectory sourceDirectory ;;
  reconstruct_matching sourceDirectory outputDirectory exportMetadata_
    atTimestamp matchingFiles.

(** What a scan establishes of the index: paths are distinct, every file
    sits under the decoded path of its resource, and that is not empty. *)
Definition index_ok (idx : list (string * TimelineFile.t)) : Prop :=
  NoDup (map fst idx)
  /\ forall k f, In (k, f) idx ->
       k = TimelineFile.relativePath f /\ TimelineFile.originalPath f <> "".

(** The loop of [getFile] over the stored paths. *)
Definition partial_match (normalizedPath : string)
           (kv : string * TimelineFile.t) : bool :=
  JS.endsWith (fst kv) normalizedPath || JS.endsWith normalizedPath (fst kv).

(** [getFile(filePath)] *)
Definition getFile (filePath : string) : Eff State (option TimelineFile.t) :=
  ensureScanned ;;
  let normalizedPath := path_resolve filePath in
  files <- gets (fun s => timelineFiles (this s)) ;;
  if JS.map_has files normalizedPath then ret (JS.map_get files normalizedPath)
  else
    match find (partial_match normalizedPath) files with
    | Some (_, timelineFile) => ret (Some timelineFile)
    | None => ret None
    end.

(** [exportVersion(timelineFile, entry, outputPath)] *)
Definition exportVersion (timelineFile : TimelineFile.t) (entry : FileEntry.t)
           (outputPath : string) : Eff World unit :=
  let sourceFile := TimelineFile.getFileContentPath timelineFile entry in
  exists_ <- gets (fun w => fs_existsSync w sourceFile) ;;
  if negb exists_
  then throw ("Error: Source file not found: " ++ sourceFile)%string
  else Utils.copyFile sourceFile outputPath.

(** The three variables the loop of [getStatistics] updates. *)
Record Tally : Type := mkTally {
  tally_versions : nat;
  tally_oldest : option (string * Z);
  tally_newest : option (string * Z)
}.

(** The body of the loop of [getStatistics]. *)
Definition tally_step (acc : Tally) (kv : string * TimelineFile.t) : Tally :=
  let '(filePath, timelineFile) := kv in
  mkTally
    (tally_versions acc + TimelineFile.versionCount timelineFile)
    (match TimelineFile.oldestEntry timelineFile with
     | Some oldest =>
         match tally_oldest acc with
         | None => Some (filePath, FileEntry.timestamp oldest)
         | Some (_, t0) =>
             if FileEntry.timestamp oldest <? t0
             then Some (filePath, FileEntry.timestamp oldest)
             else tally_oldest acc
         end
     | None => tally_oldest acc
     end)
    (match TimelineFile.latestEntry timelineFile with
     | Some newest =>
         match tally_newest acc with
         | None => Some (filePath, FileEntry.timestamp newest)
         | Some (_, t0) =>
             if FileEntry.timestamp newest >? t0
             then Some (filePath, FileEntry.timestamp newest)
             else tally_newest acc
         end
     | None => tally_newest acc
     end).

(** What the tally holds after the files [done] of the loop. *)
Definition tally_ok (done : list (string * TimelineFile.t)) (acc : Tally) : Prop :=
  tally_versions acc
  = list_sum (map (fun kv => TimelineFile.versionCount (snd kv)) done)
  /\ match tally_newest acc with
     | Some (p, t0) =>
         (exists f e, In (p, f) done /\ In e (TimelineFile.entries f) /\ FileEntry.timestamp e = t0)
         /\ forall p' f' e', In (p', f') done ->
              In e' (TimelineFile.entries f') -> FileEntry.timestamp e' <= t0
     | None => forall p' f', In (p', f') done -> TimelineFile.entries f' = []
     end
  /\ match tally_oldest acc with
     | Some (p, t0) =>
         (exists f e, In (p, f) done /\ In e (TimelineFile.entries f) /\ FileEntry.timestamp e = t0)
         /\ forall p' f' e', In (p', f') done ->
              In e' (TimelineFile.entries f') -> t0 <= FileEntry.timestamp e'
     | None => forall p' f', In (p', f') done -> TimelineFile.entries f' = []
     end.

(** [getStatistics()] *)
Definition getStatistics : Eff State Statistics.t :=
  ensureScanned ;;
  files <- gets (fun s => timelineFiles (this s)) ;;
  root <- gets (fun s => timelinePath (this s)) ;;
  let acc := fold_left tally_step files (mkTally 0 None None) in
  ret (Statistics.mk root (JS.map_size files) (tally_versions acc)
         (tally_oldest acc) (tally_newest acc)).

Context `{OsApi}.

(** [customPath || configPath], and the test [if (pathToCheck)]. *)
Definition truthy (x : option string) : option string :=
  match x with
  | Some (String c r) => Some (String c r)
  | _ => None
  end.

(** The loop of [resolveTimelinePath] over the default paths. *)
Fixpoint first_existing (w : World) (defaults : list string) : option string :=
  match defaults with
  | [] => None
  | defaultPath :: rest =>
      let expanded := Utils.expandUserPath (Utils.expandEnvVars defaultPath) in
      if fs_existsSync w expanded then Some expanded
      else first_existing w rest
  end.

(** [resolveTimelinePath(customPath)], with the value [configPath] of the
    setting [timelineExtractor.customTimelinePath]. *)
Definition resolveTimelinePath (customPath configPath : option string)
  : Eff World string :=
  fun w =>
    let pathToCheck :=
      match truthy customPath with
      | Some c => Some c
      | None => configPath
      end in
    match truthy pathToCheck with
    | Some p =>
        let expanded := Utils.expandUserPath (Utils.expandEnvVars p) in
        if fs_existsSync w expanded then (w, Ok expanded)
        else (w, Throw ("Error: Timeline directory not found: " ++ expanded)%string)
    | None =>
        let platform := os_platform in
        if String.eqb platform "darwin" || String.eqb platform "linux"
           || String.eqb platform "win32"
        then
          match first_existing w (DEFAULT_TIMELINE_PATHS platform) with
          | Some expanded => (w, Ok expanded)
          | None =>
              (w, Throw ("Error: No VS Code timeline directory found. Tried: "
                         ++ String.concat ", " (DEFAULT_TIMELINE_PATHS platform))%string)
          end
        else (w, Throw ("Error: Unsupported operating system: " ++ platform)%string)
    end.

(** [new VSCodeTimelineExtractor(timelinePath)] *)
Definition construct (customPath configPath : option string) : Eff World t :=
  root <- resolveTimelinePath customPath configPath ;;
  ret (mk root [] false).

End WithHost.

Arguments State World : clear implicits.

End Extractor.

(* ================================================================== *)
(** ** treeViews/versionsTreeProvider.ts

    Of a tree item, the file, the entry and the version number it is
    made with; its label, tooltip and icon are presentation. *)

Module VersionsTreeProvider.

Record VersionTreeItem : Type := mkItem {
  timelineFile : TimelineFile.t;
  entry : FileEntry.t;
  versionNumber : nat
}.

(** [arr.map((x, index) => f(x, index))], from index [i] on. *)
Fixpoint map_index {A B : Type} (f : A -> nat -> B) (l : list A) (i : nat)
  : list B :=
  match l with
  | [] => []
  | x :: l' => f x i :: map_index f l' (S i)
  end.

(** [getChildren(element)] for the provider's [currentFile]. *)
Definition getChildren (currentFile : option TimelineFile.t)
           (element : option VersionTreeItem) : list VersionTreeItem :=
  match element, currentFile with
  | None, Some file =>
      let sortedEntries := TimelineFile.sortedEntries file in
      map_index
        (fun entry index =>
           mkItem file entry (List.length sortedEntries - index)%nat)
        sortedEntries 0%nat
  | _, _ => []
  end.

End VersionsTreeProvider.

(* ================================================================== *)
(** ** A host to evaluate on: POSIX paths, an in-memory file system, the
    standard date format and file URLs *)

(** [path.posix], after Node's implementation, for a working directory
    [cwd] (an absolute path). *)
Module Posix.

Definition slash : ascii := "/"%char.

Definition str (l : list ascii) : string := string_of_list_ascii l.

(** The segments of a path between its slashes, empty ones included;
    [cur] holds the current segment in reverse. *)
Fixpoint split (s : string) (cur : list ascii) : list string :=
  match s with
  | EmptyString => [str (rev cur)]
  | String c r =>
      if Ascii.eqb c slash then str (rev cur) :: split r []
      else split r (c :: cur)
  end.

(** One step of [normalizeString] on the reversed list of segments kept. *)
Definition push_segment (allowAboveRoot : bool) (kept : list string)
           (seg : string) : list string :=
  if (String.eqb seg "" || String.eqb seg ".")%bool then kept
  else if String.eqb seg ".." then
    match kept with
    | last :: kept' =>
        if String.eqb last ".."
        then (if allowAboveRoot then ".." :: kept else kept)
        else kept'
    | [] => if allowAboveRoot then [".."] else []
    end
  else seg :: kept.

(** [normalizeString(path, allowAboveRoot, '/', isPosixPathSeparator)],
    as the list of the segments of its result. *)
Definition normalize_segments (allowAboveRoot : bool) (path : string)
  : list string :=
  rev (fold_left (push_segment allowAboveRoot) (split path []) []).

Definition join_segments (segs : list string) : string :=
  String.concat "/" segs.

Definition isAbsolute (p : string) : bool :=
  match p with String c _ => Ascii.eqb c slash | EmptyString => false end.

(** [path.resolve(p)] *)
Definition resolve_segments (cwd p : string) : list string :=
  normalize_segments false
    (if isAbsolute p then p
     else if String.eqb p "" then cwd
     else (cwd ++ "/" ++ p)%string).

Definition resolve (cwd p : string) : string :=
  ("/" ++ join_segments (resolve_segments cwd p))%string.

Fixpoint drop_common (a b : list string) : list string * list string :=
  match a, b with
  | x :: a', y :: b' => if String.eqb x y then drop_common a' b' else (a, b)
  | _, _ => (a, b)
  end.

(** [path.relative(from, to)]: one [..] for every segment of [from]
    below the common directory, then the rest of [to]. *)
Definition relative (cwd from to : string) : string :=
  let '(up, down) :=
    drop_common (resolve_segments cwd from) (resolve_segments cwd to) in
  join_segments (map (fun _ => "..") up ++ down).

(** [path.normalize(p)] *)
Definition normalize (p : string) : string :=
  if String.eqb p "" then "."
  else
    let absolute := isAbsolute p in
    let trailing := JS.endsWith p "/" in
    let body := join_segments (normalize_segments (negb absolute) p) in
    if String.eqb body "" then
      (if absolute then "/" else if trailing then "./" else ".")
    else
      let body' := if trailing then (body ++ "/")%string else body in
      if absolute then ("/" ++ body')%string else body'.

(** [path.join(a, b)] *)
Definition join (a b : string) : string :=
  if String.eqb a "" then normalize b
  else if String.eqb b "" then normalize a
  else normalize (a ++ "/" ++ b)%string.

Fixpoint drop_while {A : Type} (p : A -> bool) (l : list A) : list A :=
  match l with
  | x :: l' => if p x then drop_while p l' else l
  | [] => []
  end.

(** [path.dirname(p)]: the scan runs from the end down to index 1. *)
Definition dirname (p : string) : string :=
  match p with
  | EmptyString => "."
  | String c0 rest =>
      let hasRoot := Ascii.eqb c0 slash in
      let backwards := rev (list_ascii_of_string rest) in
      let no_trailing := drop_while (Ascii.eqb slash) backwards in
      let at_slash := drop_while (fun c => negb (Ascii.eqb slash c)) no_trailing in
      match at_slash with
      | [] => if hasRoot then "/" else "."
      | _ :: before =>
          if (hasRoot && (List.length before =? 0)%nat)%bool then "//"
          else String c0 (str (rev before))
      end
  end.

Definition api (cwd : string) : PathApi := {|
  path_sep := "/";
  path_resolve := resolve cwd;
  path_relative := fun from to => Ok (relative cwd from to);
  path_join := join;
  path_dirname := dirname
|}.

End Posix.

(** An in-memory file system: regular files by path, directory listings
    by path, and the reading of the clock. *)
Module MemFs.

Inductive file : Type :=
| Blob (content : string)             (* any other content *)
| ManifestJson (m : Manifest.t)       (* a well-formed [entries.json] *)
| BrokenJson                          (* text that [JSON.parse] rejects *)
| MetadataJson (d : MetadataDoc.t).   (* a written metadata document *)

Record t : Type := mk {
  files : list (string * file);
  dirs : list (string * list Dirent.t);
  clock : string
}.

Definition enoent (call p : string) : string :=
  ("Error: ENOENT: no such file or directory, " ++ call ++ " '" ++ p ++ "'")%string.

Definition existsSync (w : t) (p : string) : bool :=
  JS.map_has (files w) p || JS.map_has (dirs w) p.

Definition readdirSync (w : t) (p : string) : Res (list Dirent.t) :=
  match JS.map_get (dirs w) p with
  | Some l => Ok l
  | None => Throw (enoent "scandir" p)
  end.

Definition readManifest (w : t) (p : string) : Res Manifest.t :=
  match JS.map_get (files w) p with
  | Some (ManifestJson m) => Ok m
  | Some _ => Throw "SyntaxError: Unexpected token in JSON at position 0"
  | None => Throw (enoent "open" p)
  end.

Definition put_file (w : t) (p : string) (f : file) : t :=
  mk (JS.map_set (files w) p f) (dirs w) (clock w).

Definition mkdirSync (w : t) (p : string) : t * Res unit :=
  (mk (files w) (JS.map_set (dirs w) p []) (clock w), Ok tt).

Definition copyFileSync (w : t) (source destination : string) : t * Res unit :=
  match JS.map_get (files w) source with
  | Some f => (put_file w destination f, Ok tt)
  | None => (w, Throw (enoent "copyfile" source))
  end.

Definition writeMetadata (w : t) (p : string) (d : MetadataDoc.t) : t * Res unit :=
  (put_file w p (MetadataJson d), Ok tt).

(** [digest algorithm f] stands for the hex digest of the bytes of [f]. *)
Definition hashFile (digest : string -> file -> string) (w : t)
           (algorithm p : string) : Res string :=
  match JS.map_get (files w) p with
  | Some f => Ok (digest algorithm f)
  | None => Throw (enoent "open" p)
  end.

Definition api (digest : string -> file -> string) : FsApi t := {|
  fs_readdirSync := readdirSync;
  fs_existsSync := existsSync;
  fs_readManifest := readManifest;
  fs_mkdirSync := mkdirSync;
  fs_copyFileSync := copyFileSync;
  fs_writeMetadata := writeMetadata;
  fs_hashFile := hashFile digest;
  Date_now_ISOString := clock
|}.

End MemFs.

(** [Date] for a fixed offset [tz] of local time from UTC, in
    milliseconds, on the formats the language standard defines:
    [YYYY-MM-DD] (UTC) and [YYYY-MM-DDTHH:mm:ss] (local time).  Strings in
    any other form are left to the engine by the standard; this one
    rejects them. *)
Module EsDate.

Definition msPerDay : Z := 86400000.

Definition maxTime : Z := 8640000000000000.

(** Days from 1970-01-01 to the given day of the proleptic Gregorian
    calendar, [m] in [1..12]. *)
Definition days_from_civil (y m d : Z) : Z :=
  let y' := if m <=? 2 then y - 1 else y in
  let era := y' / 400 in
  let yoe := y' - era * 400 in
  let mp := (m + 9) mod 12 in
  let doy := (153 * mp + 2) / 5 + d - 1 in
  let doe := yoe * 365 + yoe / 4 - yoe / 100 + doy in
  era * 146097 + doe - 719468.

(** The inverse: year, month and day of a day number. *)
Definition civil_from_days (z : Z) : Z * Z * Z :=
  let z' := z + 719468 in
  let era := z' / 146097 in
  let doe := z' - era * 146097 in
  let yoe := (doe - doe / 1460 + doe / 36524 - doe / 146096) / 365 in
  let doy := doe - (365 * yoe + yoe / 4 - yoe / 100) in
  let mp := (5 * doy + 2) / 153 in
  let d := doy - (153 * mp + 2) / 5 + 1 in
  let m := if mp <? 10 then mp + 3 else mp - 9 in
  let y := yoe + era * 400 in
  ((if m <=? 2 then y + 1 else y), m, d).

Definition is_leap (y : Z) : bool :=
  ((y mod 4 =? 0) && negb (y mod 100 =? 0)) || (y mod 400 =? 0).

Definition days_in_month (y m : Z) : Z :=
  if m =? 2 then (if is_leap y then 29 else 28)
  else if (m =? 4) || (m =? 6) || (m =? 9) || (m =? 11) then 30
  else 31.

(** [TimeClip] *)
Definition timeClip (t0 : Z) : jsnum :=
  if Z.abs t0 <=? maxTime then Num t0 else NaN.

(** [MakeDay(year, month, date)] for a month index that may overflow. *)
Definition makeDay (year month date : Z) : Z :=
  days_from_civil (year + month / 12) (month mod 12 + 1) 1 + date - 1.

(** [new Date(year, monthIndex, day).getTime()] *)
Definition local (tz : Z) (year monthIndex day : Z) : jsnum :=
  let yr := if (0 <=? year) && (year <=? 99) then 1900 + year else year in
  timeClip (makeDay yr monthIndex day * msPerDay - tz).

Definition two (a b : ascii) : option Z :=
  if Number.is_digit a && Number.is_digit b
  then Some (10 * Number.digit_value a + Number.digit_value b)
  else None.

Definition four (a b c d : ascii) : option Z :=
  match two a b, two c d with
  | Some h, Some l => Some (100 * h + l)
  | _, _ => None
  end.

(** The day number of [YYYY-MM-DD] when it names a day of the calendar. *)
Definition parse_day (y1 y2 y3 y4 m1 m2 d1 d2 : ascii) : option Z :=
  match four y1 y2 y3 y4, two m1 m2, two d1 d2 with
  | Some y, Some m, Some d =>
      if (1 <=? m) && (m <=? 12) && (1 <=? d) && (d <=? days_in_month y m)
      then Some (days_from_civil y m d)
      else None
  | _, _, _ => None
  end.

(** The milliseconds into the day of [HH:mm:ss]. *)
Definition parse_time (h1 h2 n1 n2 s1 s2 : ascii) : option Z :=
  match two h1 h2, two n1 n2, two s1 s2 with
  | Some h, Some n, Some sec =>
      if ((h <=? 23) && (n <=? 59) && (sec <=? 59))
         || ((h =? 24) && (n =? 0) && (sec =? 0))
      then Some (((h * 60 + n) * 60 + sec) * 1000)
      else None
  | _, _, _ => None
  end.

(** [new Date(s).getTime()] *)
Definition parse (tz : Z) (s : string) : jsnum :=
  match s with
  | String y1 (String y2 (String y3 (String y4 (String "-"
    (String m1 (String m2 (String "-" (String d1 (String d2 rest))))))))) =>
      match parse_day y1 y2 y3 y4 m1 m2 d1 d2, rest with
      | Some day, EmptyString => timeClip (day * msPerDay)
      | Some day, String "T" (String h1 (String h2 (String ":"
                  (String n1 (String n2 (String ":"
                  (String s1 (String s2 EmptyString)))))))) =>
          match parse_time h1 h2 n1 n2 s1 s2 with
          | Some ms => timeClip (day * msPerDay + ms - tz)
          | None => NaN
          end
      | _, _ => NaN
      end
  | _ => NaN
  end.

(** Decimal digits of a natural number, padded with zeros to [width]. *)
Definition pad (width : nat) (n : Z) : string :=
  let digits := NilZero.string_of_uint (N.to_uint (Z.to_N n)) in
  (String.concat "" (repeat "0" (width - String.length digits)) ++ digits)%string.

Definition year_string (y : Z) : string :=
  if (0 <=? y) && (y <=? 9999) then pad 4 y
  else if y <? 0 then ("-" ++ pad 6 (- y))%string
  else ("+" ++ pad 6 y)%string.

(** [new Date(ms).toISOString()] *)
Definition toISOString (ms : Z) : Res string :=
  if Z.abs ms <=? maxTime then
    let '(y, m, d) := civil_from_days (ms / msPerDay) in
    let t0 := ms mod msPerDay in
    Ok (year_string y ++ "-" ++ pad 2 m ++ "-" ++ pad 2 d ++ "T"
        ++ pad 2 (t0 / 3600000) ++ ":" ++ pad 2 (t0 / 60000 mod 60) ++ ":"
        ++ pad 2 (t0 / 1000 mod 60) ++ "." ++ pad 3 (t0 mod 1000) ++ "Z")%string
  else Throw "RangeError: Invalid time value".

Definition api (tz : Z) : DateApi := {|
  Date_parse := parse tz;
  Date_local := local tz;
  Date_toISOString := toISOString
|}.

End EsDate.

(** [URL] on a fragment: [file://] followed by an absolute path of
    unreserved characters without [.] or [..] segments is a valid URL and
    decodes to that path.  On any other string this host answers as for a
    string without a scheme, which is not a valid URL; the examples use
    only these two kinds of strings. *)
Module FileUrl.

Definition unreserved (c : ascii) : bool :=
  let n := nat_of_ascii c in
  (((48 <=? n) && (n <=? 57)) || ((65 <=? n) && (n <=? 90))
   || ((97 <=? n) && (n <=? 122))
   || (n =? 45) || (n =? 46) || (n =? 47) || (n =? 95) || (n =? 126))%nat.

Definition decoded_pathname (uri : string) : Res string :=
  let p := JS.slice uri 7 in
  if JS.startsWith uri "file:///" && Number.forall_chars unreserved p
     && negb (existsb (fun seg => String.eqb seg "." || String.eqb seg "..")
                      (Posix.split p []))
  then Ok p
  else Throw "TypeError: Invalid URL".

Definition api : UrlApi := {| URL_decoded_pathname := decoded_pathname |}.

End FileUrl.

(* ================================================================== *)
(** ** Data for the examples *)

Module Fixture.

Definition version (i : string) (t0 : Z) : FileEntry.t :=
  FileEntry.mk i t0 None None.

(** A file known by its entries alone. *)
Definition file_of (l : list FileEntry.t) : TimelineFile.t :=
  TimelineFile.mk "" "" l.

(** The host of the examples: POSIX paths from the root directory, the
    in-memory file system, UTC as local time. *)
Definition path : PathApi := Posix.api "/".

Definition digest (algorithm : string) (f : MemFs.file) : string :=
  match f with
  | MemFs.Blob content => (algorithm ++ "(" ++ content ++ ")")%string
  | _ => algorithm
  end.

Definition fs : FsApi MemFs.t := MemFs.api digest.

Definition url : UrlApi := FileUrl.api.

Definition date : DateApi := EsDate.api 0.

(** The history store of the scenarios: three files tracked under
    [/work/proj], each with one version, and the blob of [b.txt] gone. *)
Definition tracked (name blob : string) (t0 : Z) : string * TimelineFile.t :=
  (("/work/proj/" ++ name)%string,
   TimelineFile.mk ("file:///work/proj/" ++ name) ("/store/" ++ name)
     [version blob t0]).

Definition index3 : list (string * TimelineFile.t) :=
  [tracked "a.txt" "a1" 100; tracked "b.txt" "b1" 200; tracked "c.txt" "c1" 300].

Definition disk3 : MemFs.t :=
  MemFs.mk [("/store/a.txt/a1", MemFs.Blob "alpha");
            ("/store/c.txt/c1", MemFs.Blob "gamma")]
           [] "2026-01-28T12:00:00.000Z".

(** The extractor after a scan that found the three files; the store
    root itself is not on [disk3], so a rescan cannot enumerate it. *)
Definition state3 : Extractor.State MemFs.t :=
  Extractor.mkState (Extractor.mk "/store" index3 true) disk3.

(** [disk3] once [a.txt] has been copied to [/out]. *)
Definition disk3_after_a : MemFs.t :=
  MemFs.mk [("/store/a.txt/a1", MemFs.Blob "alpha");
            ("/store/c.txt/c1", MemFs.Blob "gamma");
            ("/out/a.txt", MemFs.Blob "alpha")]
           [("/out", [])] "2026-01-28T12:00:00.000Z".

(** A tracked path that is the source directory itself, its blob gone. *)
Definition state_self : Extractor.State MemFs.t :=
  Extractor.mkState
    (Extractor.mk "/store"
       [("/work/proj",
         TimelineFile.mk "file:///work/proj" "/store/proj" [version "p1" 100])]
       true)
    (MemFs.mk [] [] "2026-01-28T12:00:00.000Z").

(** Tracked files beside the directories [/foo] and [/a/proj]. *)
Definition state_siblings : Extractor.State MemFs.t :=
  Extractor.mkState
    (Extractor.mk "/store"
       [("/foobar/x", file_of [version "x1" 1]);
        ("/a/project/x", file_of [version "x2" 2])]
       true)
    (MemFs.mk [] [] "2026-01-28T12:00:00.000Z").

(** A machine for the constructor: Linux, an empty environment. *)
Definition os : OsApi := {|
  os_platform := "linux";
  os_homedir := "/home/u";
  process_env := fun _ => None
|}.

(** A history store with one good manifest, one that does not parse, one
    without resource, a plain file and a directory without manifest. *)
Definition store_disk : MemFs.t :=
  MemFs.mk
    [("/store/-1/entries.json",
      MemFs.ManifestJson
        (Manifest.mk (Some "file:///work/proj/a.txt")
           (Some [Manifest.mk_entry (Some "a1") (Some 100) None None;
                  Manifest.mk_entry (Some "a2") (Some 200) (Some "undoRedo.source") None])));
     ("/store/-1/a1", MemFs.Blob "alpha");
     ("/store/-1/a2", MemFs.Blob "alpha2");
     ("/store/-2/entries.json", MemFs.BrokenJson);
     ("/store/-3/entries.json", MemFs.ManifestJson (Manifest.mk None None))]
    [("/store",
      [Dirent.mk "-1" true; Dirent.mk "-2" true; Dirent.mk "-3" true;
       Dirent.mk "notes.txt" false; Dirent.mk "-4" true]);
     ("/home/u/.config/Code/User/History", [])]
    "2026-01-28T12:00:00.000Z".

(** An extractor on that store, before its first scan. *)
Definition store_state : Extractor.State MemFs.t :=
  Extractor.mkState (Extractor.mk "/store" [] false) store_disk.

End Fixture.

Abbreviation ts := FileEntry.timestamp.

(* ================================================================== *)
(** ** Properties of version resolution *)

Section Resolution.

Import TimelineFile.

Lemma newer_cases (a e : FileEntry.t) :
  (newer a e = e /\ ts a < ts e) \/ (newer a e = a /\ ts e <= ts a).
Proof.
  unfold newer. destruct (Z.gtb_spec (ts e) (ts a)); [left | right]; split; auto; lia.
Qed.

(** Position of the winner of a left-to-right scan with [newer]: every
    element before it is strictly older, every element after it is not
    newer. *)
Lemma fold_newer_position (rest : list FileEntry.t) :
  forall first,
  exists l1 l2,
    first :: rest = l1 ++ fold_left newer rest first :: l2
    /\ (forall e, In e l1 -> ts e < ts (fold_left newer rest first))
    /\ (forall e, In e l2 -> ts e <= ts (fold_left newer rest first)).
Proof.
  induction rest as [|x xs IH]; intros first; simpl.
  - exists [], []. simpl. repeat split; intros e [].
  - destruct (newer_cases first x) as [[-> Hlt] | [-> Hle]].
    + destruct (IH x) as (l1 & l2 & Heq & H1 & H2).
      exists (first :: l1), l2. split; [simpl; now rewrite Heq|].
      split; auto. intros e [<- | Hin]; auto.
      destruct l1 as [|y l1']; simpl in Heq; injection Heq as Hx _.
      * rewrite <- Hx. exact Hlt.
      * subst y. specialize (H1 x (or_introl eq_refl)). lia.
    + destruct (IH first) as (l1 & l2 & Heq & H1 & H2).
      destruct l1 as [|y l1']; simpl in Heq; injection Heq as Hx Hxs.
      * exists [], (x :: l2). rewrite <- Hx in *. rewrite Hxs. simpl.
        split; [reflexivity|]. split; [intros e []|].
        intros e [<- | Hin]; [exact Hle | auto].
      * subst y. exists (first :: x :: l1'), l2.
        split; [simpl; do 2 f_equal; exact Hxs|]. split; auto.
        pose proof (H1 first (or_introl eq_refl)) as Hf.
        intros e [<- | [<- | Hin]]; [exact Hf | lia | apply H1; now right].
Qed.

Lemma reduce_newer_position (l : list FileEntry.t) (e : FileEntry.t) :
  reduce_guarded newer l = Some e ->
  exists l1 l2,
    l = l1 ++ e :: l2
    /\ (forall e', In e' l1 -> ts e' < ts e)
    /\ (forall e', In e' l2 -> ts e' <= ts e).
Proof.
  destruct l as [|first rest]; simpl; [discriminate|].
  intros [= <-]. apply fold_newer_position.
Qed.

Lemma reduce_guarded_none (cb : FileEntry.t -> FileEntry.t -> FileEntry.t) l :
  reduce_guarded cb l = None <-> l = [].
Proof. destruct l; simpl; split; congruence. Qed.

(** A decomposition of a filtered list lifts to the list itself. *)
Lemma filter_split {A} (p : A -> bool) (l : list A) :
  forall a e b,
    filter p l = a ++ e :: b ->
    exists l1 l2, l = l1 ++ e :: l2 /\ filter p l1 = a /\ filter p l2 = b
                  /\ p e = true.
Proof.
  induction l as [|x xs IH]; intros a e b H; simpl in H.
  - destruct a; discriminate.
  - destruct (p x) eqn:Hpx.
    + destruct a as [|y a']; simpl in H; injection H as Hx Hrest.
      * subst x. exists [], xs. simpl. auto.
      * subst y. destruct (IH _ _ _ Hrest) as (l1 & l2 & -> & <- & <- & Hpe).
        exists (x :: l1), l2. simpl. rewrite Hpx. auto.
    + destruct (IH _ _ _ H) as (l1 & l2 & -> & <- & <- & Hpe).
      exists (x :: l1), l2. simpl. rewrite Hpx. auto.
Qed.

Lemma filter_all_true {A} (p : A -> bool) (l : list A) :
  (forall x, In x l -> p x = true) -> filter p l = l.
Proof.
  induction l as [|x xs IH]; simpl; intros H; [reflexivity|].
  rewrite (H x (or_introl eq_refl)). f_equal. apply IH. auto.
Qed.

Lemma in_filtered {A} (p : A -> bool) (l : list A) (x : A) :
  In x l -> p x = true -> In x (filter p l).
Proof. intros. apply filter_In. auto. Qed.

(** [getEntryAtTimestamp] seen from the entries list. *)
Lemma getEntryAtTimestamp_position (f : t) (t0 : Z) (e : FileEntry.t) :
  getEntryAtTimestamp f t0 = Some e ->
  exists l1 l2,
    entries f = l1 ++ e :: l2
    /\ ts e <= t0
    /\ (forall e', In e' l1 -> ts e' <= t0 -> ts e' < ts e)
    /\ (forall e', In e' l2 -> ts e' <= t0 -> ts e' <= ts e).
Proof.
  unfold getEntryAtTimestamp. intros H.
  destruct (reduce_newer_position _ _ H) as (a & b & Hab & Ha & Hb).
  destruct (filter_split _ _ _ _ _ Hab) as (l1 & l2 & Hl & Hf1 & Hf2 & Hpe).
  exists l1, l2. split; [exact Hl|]. split; [now apply Z.leb_le|].
  split; intros e' Hin Hle.
  - apply Ha. rewrite <- Hf1. apply in_filtered; auto. now apply Z.leb_le.
  - apply Hb. rewrite <- Hf2. apply in_filtered; auto. now apply Z.leb_le.
Qed.

(** C3.  [getEntryAtTimestamp f t0] returns an entry of [f] that is not
    newer than [t0] and whose timestamp is maximal among the entries not
    newer than [t0]; it returns nothing exactly when no entry qualifies,
    in particular when [t0] precedes every entry. *)
Theorem getEntryAtTimestamp_spec (f : t) (t0 : Z) :
  match getEntryAtTimestamp f t0 with
  | Some e =>
      In e (entries f) /\ ts e <= t0
      /\ (forall e', In e' (entries f) -> ts e' <= t0 -> ts e' <= ts e)
  | None => forall e', In e' (entries f) -> t0 < ts e'
  end
  /\ (getEntryAtTimestamp f t0 = None
      <-> ~ exists e', In e' (entries f) /\ ts e' <= t0).
Proof.
  assert (Hmain :
    match getEntryAtTimestamp f t0 with
    | Some e =>
        In e (entries f) /\ ts e <= t0
        /\ (forall e', In e' (entries f) -> ts e' <= t0 -> ts e' <= ts e)
    | None => forall e', In e' (entries f) -> t0 < ts e'
    end).
  { destruct (getEntryAtTimestamp f t0) as [e|] eqn:Hres.
    - destruct (getEntryAtTimestamp_position _ _ _ Hres)
        as (l1 & l2 & Hl & Hle & H1 & H2).
      split; [rewrite Hl; apply in_or_app; right; now left|].
      split; [exact Hle|].
      intros e' Hin Hq. rewrite Hl in Hin.
      apply in_app_or in Hin. destruct Hin as [Hin | [<- | Hin]].
      + specialize (H1 e' Hin Hq). lia.
      + lia.
      + exact (H2 e' Hin Hq).
    - unfold getEntryAtTimestamp in Hres. apply reduce_guarded_none in Hres.
      intros e' Hin. destruct (Z.leb_spec (ts e') t0) as [Hq|Hq]; [|exact Hq].
      assert (Hf : In e' (filter (fun e => ts e <=? t0) (entries f))).
      { apply in_filtered; auto. now apply Z.leb_le. }
      rewrite Hres in Hf. destruct Hf. }
  split; [exact Hmain|].
  destruct (getEntryAtTimestamp f t0) as [e|].
  - split; [discriminate|]. intros Hno. exfalso. apply Hno.
    exists e. destruct Hmain as (Hin & Hle & _). auto.
  - split; [|reflexivity]. intros _ (e' & Hin & Hle).
    specialize (Hmain e' Hin). lia.
Qed.

(** C9, as the code has it.  Among the entries that share the maximal
    timestamp, [latestEntry] is the one that comes first in the entries
    list: every entry before it is strictly older, no entry after it is
    newer. *)
Theorem latestEntry_first_of_ties (f : t) :
  match latestEntry f with
  | Some e =>
      exists l1 l2,
        entries f = l1 ++ e :: l2
        /\ (forall e', In e' l1 -> ts e' < ts e)
        /\ (forall e', In e' l2 -> ts e' <= ts e)
  | None => entries f = []
  end.
Proof.
  destruct (latestEntry f) as [e|] eqn:Hres.
  - now apply reduce_newer_position.
  - now apply reduce_guarded_none in Hres.
Qed.

(** C9, refuted as stated: with two versions of equal timestamp the
    derived latest version is the first of the list, not the last. *)
Lemma latestEntry_last_of_ties_refuted :
  let a := Fixture.version "a" 5 in
  let b := Fixture.version "b" 5 in
  latestEntry (Fixture.file_of [a; b]) = Some a
  /\ latestEntry (Fixture.file_of [a; b]) <> Some b.
Proof. split; [reflexivity | discriminate]. Qed.

(** C10.  Both resolutions are functions of the entries list that keep
    the earliest of the qualifying entries tied at the maximum: the
    result of [latestEntry], and of [getEntryAtTimestamp] among the
    entries not newer than the instant, sits at a position before which
    every (qualifying) entry is strictly older, and equal lists give
    equal results. *)
Theorem resolution_earliest_of_ties (f : t) (t0 : Z) :
  match latestEntry f with
  | Some e =>
      exists l1 l2,
        entries f = l1 ++ e :: l2
        /\ (forall e', In e' l1 -> ts e' < ts e)
        /\ (forall e', In e' l2 -> ts e' <= ts e)
  | None => entries f = []
  end
  /\ match getEntryAtTimestamp f t0 with
     | Some e =>
         exists l1 l2,
           entries f = l1 ++ e :: l2
           /\ ts e <= t0
           /\ (forall e', In e' l1 -> ts e' <= t0 -> ts e' < ts e)
           /\ (forall e', In e' l2 -> ts e' <= t0 -> ts e' <= ts e)
     | None => forall e', In e' (entries f) -> t0 < ts e'
     end
  /\ (forall g : t,
        entries g = entries f ->
        latestEntry g = latestEntry f
        /\ getEntryAtTimestamp g t0 = getEntryAtTimestamp f t0).
Proof.
  split; [|split].
  - destruct (latestEntry f) as [e|] eqn:Hres.
    + now apply reduce_newer_position.
    + now apply reduce_guarded_none in Hres.
  - destruct (getEntryAtTimestamp f t0) as [e|] eqn:Hres.
    + now apply getEntryAtTimestamp_position.
    + unfold getEntryAtTimestamp in Hres. apply reduce_guarded_none in Hres.
      intros e' Hin. destruct (Z.leb_spec (ts e') t0) as [Hq|Hq]; [|exact Hq].
      assert (Hf : In e' (filter (fun e => ts e <=? t0) (entries f))).
      { apply in_filtered; auto. now apply Z.leb_le. }
      rewrite Hres in Hf. destruct Hf.
  - intros g Hg. unfold latestEntry, getEntryAtTimestamp. now rewrite Hg.
Qed.

(** With every entry at or before the instant, the filter of
    [getEntryAtTimestamp] keeps the whole list. *)
Lemma getEntryAtTimestamp_late (f : t) (t0 : Z) :
  (forall e, In e (entries f) -> ts e <= t0) ->
  getEntryAtTimestamp f t0 = latestEntry f.
Proof.
  intros Hall. unfold getEntryAtTimestamp, latestEntry.
  rewrite filter_all_true; [reflexivity|].
  intros e Hin. apply Z.leb_le. auto.
Qed.

End Resolution.

(* ================================================================== *)
(** ** Properties of [parseTimestamp] *)

Section ParseTimestamp.

Import Number.

Lemma digits_value_nonneg (s : string) :
  forall acc, 0 <= acc -> 0 <= digits_value acc s.
Proof.
  induction s as [|c r IH]; cbn [digits_value]; intros acc Hacc; [exact Hacc|].
  destruct (is_digit c) eqn:Hc; [|exact Hacc].
  apply IH. unfold is_digit in Hc. unfold digit_value.
  apply andb_prop in Hc. destruct Hc as [Hlo _].
  apply Nat.leb_le in Hlo. lia.
Qed.

Lemma digit_not_space (c : ascii) : is_digit c = true -> is_space c = false.
Proof.
  unfold is_digit, is_space. intros H.
  apply andb_prop in H. destruct H as [Hlo Hhi].
  apply Nat.leb_le in Hlo. apply Nat.leb_le in Hhi.
  apply orb_false_iff. split.
  - apply Nat.eqb_neq. lia.
  - apply andb_false_iff. right. apply Nat.leb_gt. lia.
Qed.

Lemma round_nonneg_small (v : Z) : v < 2 ^ 53 -> round_nonneg v = Num v.
Proof.
  intros Hv. unfold round_nonneg.
  destruct (Z.ltb_spec v (2 ^ 53)); [reflexivity | lia].
Qed.

(** From [2^53] on the rounded value is still at least [2^53]. *)
Lemma round_nonneg_large (v : Z) :
  2 ^ 53 <= v ->
  round_nonneg v = Inf false
  \/ exists r, round_nonneg v = Num r /\ 2 ^ 53 <= r.
Proof.
  intros Hv. unfold round_nonneg.
  destruct (Z.ltb_spec v (2 ^ 53)) as [Hlt|_]; [lia|].
  set (e := Z.log2 v - 52).
  assert (Hlog : 53 <= Z.log2 v).
  { rewrite <- (Z.log2_pow2 53) by lia. apply Z.log2_le_mono. exact Hv. }
  assert (He : 1 <= e) by (unfold e; lia).
  assert (Hpos : 0 < v) by (pose proof (Z.pow_pos_nonneg 2 53); lia).
  destruct (Z.log2_spec v Hpos) as [Hlow _].
  assert (Hsplit : 2 ^ Z.log2 v = 2 ^ 52 * 2 ^ e).
  { unfold e. rewrite <- Z.pow_add_r by lia. f_equal. lia. }
  assert (HP : 2 <= 2 ^ e).
  { change 2 with (2 ^ 1) at 1. apply Z.pow_le_mono_r; lia. }
  assert (Hq : 2 ^ 52 <= v / 2 ^ e).
  { apply Z.div_le_lower_bound; [lia|]. rewrite Z.mul_comm. lia. }
  set (q := v / 2 ^ e) in *.
  set (q' := if v mod 2 ^ e <? 2 ^ (e - 1) then q
             else if 2 ^ (e - 1) <? v mod 2 ^ e then q + 1
             else if Z.even q then q else q + 1).
  assert (Hq' : q <= q').
  { unfold q'. repeat match goal with |- context [if ?b then _ else _] =>
      destruct b end; lia. }
  destruct (2 ^ 1024 <=? q' * 2 ^ e); [now left|].
  right. eexists. split; [reflexivity|].
  assert (H52 : 0 < 2 ^ 52) by (apply Z.pow_pos_nonneg; lia).
  change (2 ^ 53) with (2 ^ 52 * 2). nia.
Qed.

Lemma round_nonneg_2_53 : round_nonneg (2 ^ 53) = Num (2 ^ 53).
Proof. vm_compute. reflexivity. Qed.

Lemma round_double_exact (v : Z) :
  0 <= v <= 2 ^ 53 -> round_double v = Num v.
Proof.
  intros [Hlo Hhi]. unfold round_double.
  destruct (Z.ltb_spec v 0); [lia|].
  destruct (Z.eq_dec v (2 ^ 53)) as [->|Hne].
  - exact round_nonneg_2_53.
  - apply round_nonneg_small. lia.
Qed.

(** On a string of digits [parseInt] rounds its decimal value. *)
Lemma parseInt_all_digits (s : string) :
  all_digits s = true -> parseInt s = round_double (digits_value 0 s).
Proof.
  destruct s as [|c r]; [discriminate|].
  unfold all_digits. cbn [forall_chars]. intros H.
  apply andb_prop in H. destruct H as [Hc _].
  unfold parseInt. cbn [trimStart]. rewrite (digit_not_space c Hc).
  assert (Hsign : match String c r with
                  | String "-" r0 => (true, r0)
                  | String "+" r0 => (false, r0)
                  | _ => (false, String c r)
                  end = (false, String c r)).
  { destruct c as [[] [] [] [] [] [] [] []]; try reflexivity; discriminate Hc. }
  rewrite Hsign. cbn [starts_with_digit]. rewrite Hc. reflexivity.
Qed.

Context `{DateApi}.

(** A string that [Date] parses never reaches the date-only branch. *)
Lemma parseTimestamp_date_parsed_first (s : string) :
  all_digits s = false ->
  isNaN (Date_parse s) = false ->
  Utils.parseTimestamp s = Ok (Date_parse s).
Proof.
  intros Hd Hp. unfold Utils.parseTimestamp.
  rewrite Hd, andb_false_r, Hp. reflexivity.
Qed.

(** C5, as the code has it.  For an all-digit string of decimal value
    [v], [parseTimestamp] returns [v * 1000] when [v < 4102444800] and
    otherwise the double nearest to [v], which is [v] itself up to
    [2^53]; ["1751055000"] and ["1751055000000"] give the same instant. *)
Theorem parseTimestamp_all_digits (s : string) :
  all_digits s = true ->
  Utils.parseTimestamp s =
    Ok (if digits_value 0 s <? 4102444800
        then Num (digits_value 0 s * 1000)
        else round_double (digits_value 0 s))
  /\ (digits_value 0 s <= 2 ^ 53 ->
      Utils.parseTimestamp s =
        Ok (Num (if digits_value 0 s <? 4102444800
                 then digits_value 0 s * 1000
                 else digits_value 0 s)))
  /\ Utils.parseTimestamp "1751055000" = Ok (Num 1751055000000)
  /\ Utils.parseTimestamp "1751055000000" = Ok (Num 1751055000000).
Proof.
  intros Hd.
  assert (Hgen : forall s0, all_digits s0 = true ->
    Utils.parseTimestamp s0 =
      Ok (if digits_value 0 s0 <? 4102444800
          then Num (digits_value 0 s0 * 1000)
          else round_double (digits_value 0 s0))).
  { clear s Hd. intros s Hd.
    unfold Utils.parseTimestamp. rewrite (parseInt_all_digits s Hd), Hd.
    pose proof (digits_value_nonneg s 0 (Z.le_refl 0)) as Hv.
    set (v := digits_value 0 s) in *.
    assert (Hbig : 4102444800 * 1000 < 2 ^ 53) by (vm_compute; reflexivity).
    destruct (Z.ltb_spec v (2 ^ 53)) as [Hsmall|Hlarge].
    - rewrite (round_double_exact v) by lia. cbn [isNaN negb andb ltb mul].
      destruct (Z.ltb_spec v 4102444800); [|reflexivity].
      rewrite round_double_exact by lia. reflexivity.
    - assert (Hnlt : (v <? 4102444800) = false) by (apply Z.ltb_ge; lia).
      rewrite Hnlt. unfold round_double.
      destruct (Z.ltb_spec v 0); [lia|].
      destruct (round_nonneg_large v Hlarge) as [-> | (r & -> & Hr)].
      + reflexivity.
      + cbn [isNaN negb andb ltb].
        assert (Hr' : (r <? 4102444800) = false) by (apply Z.ltb_ge; lia).
        rewrite Hr'. reflexivity. }
  split; [exact (Hgen s Hd)|]. split.
  - intros Hsmall. rewrite (Hgen s Hd).
    pose proof (digits_value_nonneg s 0 (Z.le_refl 0)) as Hv.
    destruct (digits_value 0 s <? 4102444800); [reflexivity|].
    rewrite round_double_exact by lia. reflexivity.
  - split; (rewrite Hgen by reflexivity; vm_compute; reflexivity).
Qed.

End ParseTimestamp.

(** C5, witnessed on [1751055000]: ten digits, read as seconds. *)
Lemma parseTimestamp_all_digits_witness :
  Number.all_digits "1751055000" = true
  /\ @Utils.parseTimestamp (EsDate.api 0) "1751055000" = Ok (Num 1751055000000).
Proof.
  split; [reflexivity|].
  exact (proj1 (proj2 (proj2
    (@parseTimestamp_all_digits (EsDate.api 0) "1751055000" eq_refl)))).
Defined.

(** C5, refuted as stated: beyond [2^53] the digits are rounded to the
    nearest double, so the value [2^53 + 1] does not come back unchanged. *)
Lemma parseTimestamp_all_digits_rounds :
  Number.all_digits "9007199254740993" = true
  /\ Number.digits_value 0 "9007199254740993" = 9007199254740993
  /\ @Utils.parseTimestamp (EsDate.api 0) "9007199254740993"
     = Ok (Num 9007199254740992)
  /\ @Utils.parseTimestamp (EsDate.api 0) "9007199254740993"
     <> Ok (Num 9007199254740993).
Proof.
  split; [reflexivity|]. split; [reflexivity|].
  split; [vm_compute; reflexivity | vm_compute; discriminate].
Qed.

(** C6, at the failing input.  Whatever the offset [tz] of local time,
    ["2025-06-27"] is read by [Date] as midnight UTC and returned from the
    second branch; midnight local time, which the third branch would
    deliver for the same date, lies [tz] milliseconds earlier. *)
Theorem parseTimestamp_bare_date_is_utc (tz : Z) :
  @Utils.parseTimestamp (EsDate.api tz) "2025-06-27" = Ok (Num 1750982400000)
  /\ Utils.match_date_only "2025-06-27" = Some ("2025", "06", "27")
  /\ EsDate.local tz 2025 (6 - 1) 27 = EsDate.timeClip (1750982400000 - tz).
Proof.
  split; [|split]; reflexivity.
Qed.

(* ================================================================== *)
(** ** Properties of the extractor *)

Section ExtractorProperties.

Context {World : Type} `{FsApi World} `{PathApi} `{UrlApi} `{DateApi}.

Import Extractor.

Lemma with_timelineFiles_twice (m m' : list (string * TimelineFile.t)) (s : State World) :
  with_timelineFiles m (with_timelineFiles m' s) = with_timelineFiles m s.
Proof. reflexivity. Qed.

Lemma with_timelineFiles_same (s : State World) :
  with_timelineFiles (timelineFiles (this s)) s = s.
Proof. destruct s as [[p m b] w]. reflexivity. Qed.

(** Reading a manifest leaves the state as it is. *)
Lemma parseEntriesFile_state (entriesFile timelineDir : string) (s : State World) :
  fst (parseEntriesFile entriesFile timelineDir s) = s.
Proof.
  unfold parseEntriesFile, bind.
  destruct (fs_readManifest (world s) entriesFile) as [data|e]; [|reflexivity].
  destruct (Manifest.resource data) as [[|c r]|]; reflexivity.
Qed.

(** One directory entry of the store changes nothing but the index, and
    never throws. *)
Lemma scan_item_frame (item : Dirent.t) (s : State World) :
  exists idx, scan_item item s = (with_timelineFiles idx s, Ok tt).
Proof.
  unfold scan_item.
  destruct (Dirent.isDirectory item); cbn [negb];
    [|exists (timelineFiles (this s)); now rewrite with_timelineFiles_same].
  unfold bind at 1. cbn [gets]. unfold bind at 1. cbn [gets].
  destruct (fs_existsSync _ _); cbn [negb];
    [|exists (timelineFiles (this s)); now rewrite with_timelineFiles_same].
  unfold try_catch, bind at 1.
  pose proof (parseEntriesFile_state
                (path_join (path_join (timelinePath (this s)) (Dirent.name item))
                           ENTRIES_FILENAME)
                (path_join (timelinePath (this s)) (Dirent.name item)) s) as Hst.
  destruct (parseEntriesFile _ _ s) as [s' [[f|]|e]]; cbn [fst] in Hst; subst s'.
  - unfold bind, gets, set_timelineFiles, modify. eexists. reflexivity.
  - exists (timelineFiles (this s)). now rewrite with_timelineFiles_same.
  - exists (timelineFiles (this s)). now rewrite with_timelineFiles_same.
Qed.

Lemma scan_loop_frame (items : list Dirent.t) :
  forall s, exists idx,
    for_of (fun _ item => scan_item item) items tt s
    = (with_timelineFiles idx s, Ok tt).
Proof.
  induction items as [|item items IH]; intros s; cbn [for_of].
  - exists (timelineFiles (this s)). unfold ret. now rewrite with_timelineFiles_same.
  - unfold bind. destruct (scan_item_frame item s) as [idx ->].
    destruct (IH (with_timelineFiles idx s)) as [idx' ->].
    exists idx'. reflexivity.
Qed.

(** The loop of the scan does not read [scanned]. *)
Lemma scan_item_with_scanned (b : bool) (item : Dirent.t) (s : State World) :
  scan_item item (with_scanned b s)
  = (with_scanned b (fst (scan_item item s)), snd (scan_item item s)).
Proof.
  unfold scan_item.
  destruct (Dirent.isDirectory item); cbn [negb]; [|reflexivity].
  cbv beta iota delta [parseEntriesFile try_catch set_timelineFiles modify
                       ret gets bind with_scanned this world timelinePath].
  match goal with |- context [fs_existsSync ?w ?p] =>
    destruct (fs_existsSync w p) end; cbn [negb]; [|reflexivity].
  match goal with |- context [fs_readManifest ?w ?p] =>
    destruct (fs_readManifest w p) as [data|e] end; [|reflexivity].
  destruct (Manifest.resource data) as [[|c r]|]; reflexivity.
Qed.

Lemma scan_loop_with_scanned (b : bool) (items : list Dirent.t) :
  forall s,
    for_of (fun _ item => scan_item item) items tt (with_scanned b s)
    = (with_scanned b (fst (for_of (fun _ item => scan_item item) items tt s)),
       snd (for_of (fun _ item => scan_item item) items tt s)).
Proof.
  induction items as [|item items IH]; intros s; cbn [for_of]; [reflexivity|].
  unfold bind. rewrite scan_item_with_scanned.
  destruct (scan_item_frame item s) as [idx ->]. cbn [fst snd].
  apply IH.
Qed.

(** What a scan, and a forced rescan, do to the state. *)
Lemma rescan_outcome (s : State World) :
  match fs_readdirSync (world s) (timelinePath (this s)) with
  | Throw e =>
      scanTimeline s = (with_timelineFiles [] s, Throw e)
      /\ refresh s = (with_scanned false (with_timelineFiles [] s), Throw e)
  | Ok items =>
      exists idx,
        scanTimeline s
        = (with_scanned true (with_timelineFiles idx s), Ok (List.length idx))
        /\ refresh s
           = (with_scanned true (with_timelineFiles idx s), Ok (List.length idx))
  end.
Proof.
  unfold refresh, scanTimeline, bind, set_timelineFiles, set_scanned, modify, gets.
  cbn [with_timelineFiles with_scanned this world timelinePath].
  destruct (fs_readdirSync (world s) (timelinePath (this s))) as [items|e].
  - destruct (scan_loop_frame items (with_timelineFiles [] s)) as [idx Hloop].
    exists idx. unfold with_timelineFiles, with_scanned in *.
    cbn [this world timelinePath scanned timelineFiles] in *.
    rewrite Hloop. cbn [this world timelinePath scanned timelineFiles].
    split; [reflexivity|].
    pose proof (scan_loop_with_scanned false items (with_timelineFiles [] s)) as Hb.
    unfold with_timelineFiles, with_scanned in Hb.
    cbn [this world timelinePath scanned timelineFiles] in Hb.
    rewrite Hb, Hloop. reflexivity.
  - split; reflexivity.
Qed.

Lemma scanTimeline_outcome (s : State World) :
  match fs_readdirSync (world s) (timelinePath (this s)) with
  | Throw e => scanTimeline s = (with_timelineFiles [] s, Throw e)
  | Ok items =>
      exists idx,
        scanTimeline s
        = (with_scanned true (with_timelineFiles idx s), Ok (List.length idx))
  end.
Proof.
  pose proof (rescan_outcome s) as Hs.
  destruct (fs_readdirSync (world s) (timelinePath (this s))) as [items|e].
  - destruct Hs as (idx & Hs & _). now exists idx.
  - exact (proj1 Hs).
Qed.

(** C2, as the code has it.  A rescan empties the index before it
    enumerates the store, so its outcome does not depend on the index
    it started from: when the enumeration throws, the index is left
    empty (and [scanned] as it was, [false] after [refresh]); when it
    succeeds, the index is the one built from the store, and nothing
    else of the state changes. *)
Theorem scanTimeline_clears_then_rebuilds (s : State World) :
  scanTimeline s = scanTimeline (with_timelineFiles [] s)
  /\ refresh s = refresh (with_timelineFiles [] s)
  /\ match fs_readdirSync (world s) (timelinePath (this s)) with
     | Throw e =>
         scanTimeline s = (with_timelineFiles [] s, Throw e)
         /\ refresh s = (with_scanned false (with_timelineFiles [] s), Throw e)
     | Ok items =>
         exists idx,
           scanTimeline s
           = (with_scanned true (with_timelineFiles idx s), Ok (List.length idx))
           /\ refresh s
              = (with_scanned true (with_timelineFiles idx s), Ok (List.length idx))
     end.
Proof.
  split; [reflexivity|]. split; [reflexivity|]. apply rescan_outcome.
Qed.

(** *** The scan as a precondition *)

Lemma ensureScanned_noop (s : State World) :
  scanned (this s) = true -> ensureScanned s = (s, Ok tt).
Proof.
  intros Hsc. unfold ensureScanned, bind, gets. rewrite Hsc. reflexivity.
Qed.

Lemma ensureScanned_ok (s s1 : State World) (u : unit) :
  ensureScanned s = (s1, Ok u) -> scanned (this s1) = true.
Proof.
  unfold ensureScanned, bind, gets.
  destruct (scanned (this s)) eqn:Hsc; cbn [negb].
  - unfold ret. intros [= <- _]. exact Hsc.
  - pose proof (scanTimeline_outcome s) as Hs.
    destruct (fs_readdirSync (world s) (timelinePath (this s))) as [items|e].
    + destruct Hs as [idx ->]. unfold ret. intros [= <- _]. reflexivity.
    + rewrite Hs. discriminate.
Qed.

(** [filterByDirectory] scans first, so a scan before it adds nothing. *)
Lemma filterByDirectory_absorbs_scan {B : Type} (src : string)
      (k : list (string * TimelineFile.t) -> Eff (State World) B)
      (s : State World) :
  bind ensureScanned (fun _ => bind (filterByDirectory src) k) s
  = bind (filterByDirectory src) k s.
Proof.
  unfold filterByDirectory. cbv beta delta [bind].
  destruct (ensureScanned s) as [s1 [[]|e]] eqn:Hscan; [|reflexivity].
  rewrite (ensureScanned_noop s1 (ensureScanned_ok _ _ _ Hscan)).
  reflexivity.
Qed.

Lemma reconstructDirectory_unfold (src out : string) (meta : bool)
      (at_ : option Z) (s : State World) :
  reconstructDirectory src out meta at_ s
  = bind (filterByDirectory src) (reconstruct_matching src out meta at_) s.
Proof. apply filterByDirectory_absorbs_scan. Qed.

(** *** The filter *)

Lemma map_set_In {V : Type} (m : list (string * V)) (k : string) (v : V)
      (x : string * V) :
  In x (JS.map_set m k v) -> In x m \/ x = (k, v).
Proof.
  induction m as [|[k' v'] m IH]; cbn [JS.map_set].
  - intros [<- | []]. now right.
  - destruct (String.eqb k' k).
    + intros [<- | Hin]; [now right | left; now right].
    + intros [<- | Hin]; [left; now left|].
      destruct (IH Hin) as [Hm | Heq]; [left; now right | now right].
Qed.

Lemma map_set_not_nil {V : Type} (m : list (string * V)) (k : string) (v : V) :
  JS.map_set m k v <> [].
Proof.
  destruct m as [|[k' v'] m]; cbn [JS.map_set]; [discriminate|].
  destruct (String.eqb k' k); discriminate.
Qed.

Lemma filter_fold_In (nd dws : string) (files : list (string * TimelineFile.t)) :
  forall acc x,
    In x (fold_left (filter_step nd dws) files acc) ->
    In x acc \/ (In x files /\ directory_test nd dws (fst x) = true).
Proof.
  induction files as [|[k v] files IH]; cbn [fold_left]; intros acc x Hin;
    [now left|].
  destruct (IH _ _ Hin) as [Hacc | [Hf Ht]].
  - unfold filter_step in Hacc.
    destruct (directory_test nd dws k) eqn:Hk; [|now left].
    destruct (map_set_In _ _ _ _ Hacc) as [Hm | ->]; [now left|].
    right. split; [now left | exact Hk].
  - right. split; [now right | exact Ht].
Qed.

Lemma filter_fold_nil (nd dws : string) (files : list (string * TimelineFile.t)) :
  forall acc,
    fold_left (filter_step nd dws) files acc = [] <->
    acc = [] /\ forall x, In x files -> directory_test nd dws (fst x) = false.
Proof.
  induction files as [|[k v] files IH]; cbn [fold_left]; intros acc.
  - split; [intros ->; split; [reflexivity | intros x []] | now intros [-> _]].
  - rewrite IH. unfold filter_step.
    destruct (directory_test nd dws k) eqn:Hk.
    + split.
      * intros [Hm _]. now apply map_set_not_nil in Hm.
      * intros [_ Hall]. specialize (Hall (k, v) (or_introl eq_refl)).
        cbn [fst] in Hall. congruence.
    + split.
      * intros [-> Hall]. split; [reflexivity|].
        intros x [<- | Hin]; [exact Hk | now apply Hall].
      * intros [-> Hall]. split; [reflexivity|].
        intros x Hin. apply Hall. now right.
Qed.

(** Every file of the result is a file of the index that passed the test. *)
Lemma matching_files_In (nd dws : string) (files : list (string * TimelineFile.t))
      (x : string * TimelineFile.t) :
  In x (matching_files nd dws files) ->
  In x files /\ directory_test nd dws (fst x) = true.
Proof.
  intros Hin. destruct (filter_fold_In nd dws files [] x Hin) as [[] | Hx].
  exact Hx.
Qed.

(** The result is empty exactly when no file of the index passes. *)
Lemma matching_files_nil (nd dws : string) (files : list (string * TimelineFile.t)) :
  matching_files nd dws files = [] <->
  forall x, In x files -> directory_test nd dws (fst x) = false.
Proof.
  unfold matching_files. rewrite filter_fold_nil. split; [now intros [_ Hall] | now split].
Qed.

Lemma prefix_app_left (a b s : string) :
  String.prefix (a ++ b) s = true -> String.prefix a s = true.
Proof.
  revert s. induction a as [|c a IH]; intros [|c' s]; cbn;
    try reflexivity; try discriminate.
  destruct (ascii_dec c c'); [apply IH | discriminate].
Qed.

(** The test of the filter is the plain prefix test on the normalised
    directory: its first disjunct implies its second. *)
Lemma directory_test_is_prefix (nd p : string) :
  directory_test nd
    (if JS.endsWith nd path_sep then nd else (nd ++ path_sep)%string) p
  = JS.startsWith p nd.
Proof.
  unfold directory_test, JS.startsWith.
  destruct (JS.endsWith nd path_sep); [apply orb_diag|].
  destruct (String.prefix (nd ++ path_sep) p) eqn:Hp; [|reflexivity].
  cbn [orb]. symmetry. exact (prefix_app_left _ _ _ Hp).
Qed.

(** What [filterByDirectory] returns, in terms of the scan. *)
Lemma filterByDirectory_outcome (src : string) (s : State World) :
  filterByDirectory src s
  = match ensureScanned s with
    | (s1, Ok _) =>
        (s1, Ok (matching_files (path_resolve src)
                   (if JS.endsWith (path_resolve src) path_sep
                    then path_resolve src
                    else (path_resolve src ++ path_sep)%string)
                   (timelineFiles (this s1))))
    | (s1, Throw e) => (s1, Throw e)
    end.
Proof.
  unfold filterByDirectory. cbv beta delta [bind gets ret].
  destruct (ensureScanned s) as [s1 [[]|e]]; reflexivity.
Qed.

(** *** The loop over the matching files *)

(** A file never throws past [processFileForReconstruction]. *)
Lemma processFile_total (p : string) (f : TimelineFile.t) (src out : string)
      (at_ : option Z) (meta : bool) (w : World) :
  exists w' o,
    processFileForReconstruction p f src out at_ meta w = (w', Ok o).
Proof.
  unfold processFileForReconstruction, try_catch.
  destruct (process_file_body p f src out at_ meta w) as [w' [o|e]];
    eexists; eexists; reflexivity.
Qed.

Lemma collect_acc_app (a b : Acc) (p : string) (o : FileOutcome) :
  collect (acc_app a b) p o = acc_app a (collect b p o).
Proof.
  destruct o as [rel [m|]| |file err]; unfold collect, acc_app;
    cbn [processedFiles skippedFiles errors metadataEntries];
    now rewrite <- ?app_assoc.
Qed.

Lemma acc_app_empty (a : Acc) : acc_app a empty_acc = a.
Proof.
  destruct a. unfold acc_app, empty_acc.
  cbn [processedFiles skippedFiles errors metadataEntries].
  now rewrite !app_nil_r.
Qed.

(** The loop completes on every list: it returns the accumulator it was
    given, followed by what one run from the empty accumulator pushes. *)
Lemma reconstruct_loop_outcome (l : list (string * TimelineFile.t))
      (src out : string) (at_ : option Z) (meta : bool) :
  forall (b : Acc) (w : World),
  exists w' d,
    reconstruct_loop l src out at_ meta b w = (w', Ok d)
    /\ forall a,
         reconstruct_loop l src out at_ meta (acc_app a b) w
         = (w', Ok (acc_app a d)).
Proof.
  unfold reconstruct_loop.
  induction l as [|[p f] l IH]; intros b w; cbn [for_of].
  - exists w, b. split; [reflexivity | intros a; reflexivity].
  - cbv beta delta [bind ret].
    destruct (processFile_total p f src out at_ meta w) as (w1 & o & ->).
    destruct (IH (collect b p o) w1) as (w' & d & Hrun & Hshift).
    exists w', d. split; [exact Hrun|].
    intros a. rewrite collect_acc_app. apply Hshift.
Qed.

Lemma reconstruct_loop_total (l : list (string * TimelineFile.t))
      (src out : string) (at_ : option Z) (meta : bool) (acc : Acc) (w : World) :
  exists w' acc', reconstruct_loop l src out at_ meta acc w = (w', Ok acc').
Proof.
  destruct (reconstruct_loop_outcome l src out at_ meta acc w)
    as (w' & d & Hrun & _).
  now exists w', d.
Qed.

Lemma reconstruct_loop_app (l1 l2 : list (string * TimelineFile.t))
      (src out : string) (at_ : option Z) (meta : bool) :
  forall (acc acc1 : Acc) (w w1 : World),
    reconstruct_loop l1 src out at_ meta acc w = (w1, Ok acc1) ->
    reconstruct_loop (l1 ++ l2) src out at_ meta acc w
    = reconstruct_loop l2 src out at_ meta acc1 w1.
Proof.
  unfold reconstruct_loop.
  induction l1 as [|[p f] l1 IH]; intros acc acc1 w w1; cbn [for_of app].
  - unfold ret. now intros [= -> ->].
  - cbv beta delta [bind ret].
    destruct (processFile_total p f src out at_ meta w) as (w' & o & ->).
    apply IH.
Qed.

(** A resolved version with a usable relative path and no blob on disk
    is an error of the file, and the disk is left as it was. *)
Lemma processFile_missing_blob (p : string) (f : TimelineFile.t)
      (src out : string) (at_ : option Z) (meta : bool) (w : World)
      (e : FileEntry.t) (rel : string) :
  resolve_version f at_ = Some e ->
  calculateRelativePath p src = Some rel ->
  rel <> "" ->
  fs_existsSync w (TimelineFile.getFileContentPath f e) = false ->
  processFileForReconstruction p f src out at_ meta w
  = (w, Ok (Errored p ("Source file not found: "
                       ++ TimelineFile.getFileContentPath f e)%string)).
Proof.
  intros Hres Hrel Hne Hex.
  unfold processFileForReconstruction, try_catch, process_file_body.
  rewrite Hres, Hrel. destruct rel as [|c r]; [contradiction|].
  cbv beta delta [bind gets ret]. rewrite Hex. reflexivity.
Qed.

(** The choice of the version is all that the instant is used for. *)
Lemma processFile_same_version (p : string) (f : TimelineFile.t)
      (src out : string) (at1 at2 : option Z) (meta : bool) (w : World) :
  resolve_version f at1 = resolve_version f at2 ->
  processFileForReconstruction p f src out at1 meta w
  = processFileForReconstruction p f src out at2 meta w.
Proof.
  intros Hsame. unfold processFileForReconstruction, process_file_body.
  now rewrite Hsame.
Qed.

Lemma reconstruct_loop_same_versions (l : list (string * TimelineFile.t))
      (src out : string) (at1 at2 : option Z) (meta : bool) :
  (forall p f, In (p, f) l -> resolve_version f at1 = resolve_version f at2) ->
  forall acc w,
    reconstruct_loop l src out at1 meta acc w
    = reconstruct_loop l src out at2 meta acc w.
Proof.
  unfold reconstruct_loop.
  induction l as [|[p f] l IH]; intros Hsame acc w; cbn [for_of];
    [reflexivity|].
  cbv beta delta [bind ret].
  rewrite (processFile_same_version p f src out at1 at2 meta w)
    by (apply (Hsame p); now left).
  destruct (processFileForReconstruction p f src out at2 meta w) as [w' [o|e]];
    [|reflexivity].
  apply IH. intros p' f' Hin. apply (Hsame p'). now right.
Qed.

(** *** Reconstruction *)

Lemma bind_apply {S A B : Type} (m : Eff S A) (k : A -> Eff S B) (s : S) :
  bind m k s
  = match m s with
    | (s', Ok a) => k a s'
    | (s', Throw e) => (s', Throw e)
    end.
Proof. reflexivity. Qed.

Lemma reconstruct_matching_none (src out : string) (meta : bool)
      (at_ : option Z) (s0 : State World) :
  reconstruct_matching src out meta at_ [] s0
  = (s0, Ok (ReconstructionResult.mk false None 0 [] [] None None
               (Some (no_files_found src)))).
Proof. reflexivity. Qed.

(** With a file to process, the directory is made first and a failure
    to make it is a failure of the call. *)
Lemma reconstruct_matching_mkdir_fails (src out : string) (meta : bool)
      (at_ : option Z) (x : string * TimelineFile.t)
      (l : list (string * TimelineFile.t)) (s0 : State World)
      (w1 : World) (e : string) :
  Utils.ensureDirectoryExists out (world s0) = (w1, Throw e) ->
  reconstruct_matching src out meta at_ (x :: l) s0
  = (mkState (this s0) w1, Throw e).
Proof.
  intros Hmk. unfold reconstruct_matching.
  cbn [JS.map_size List.length Nat.eqb].
  rewrite bind_apply. unfold on_world at 1. rewrite Hmk. reflexivity.
Qed.

(** Every result about at least one matching file reports success and
    the accounts of the loop. *)
Lemma reconstruct_matching_fields (src out : string) (meta : bool)
      (at_ : option Z) (x : string * TimelineFile.t)
      (l : list (string * TimelineFile.t)) (s0 s' : State World)
      (r : ReconstructionResult.t) :
  reconstruct_matching src out meta at_ (x :: l) s0 = (s', Ok r) ->
  exists w1 w2 acc,
    Utils.ensureDirectoryExists out (world s0) = (w1, Ok tt)
    /\ reconstruct_loop (x :: l) (path_resolve src) out at_ meta empty_acc w1
       = (w2, Ok acc)
    /\ ReconstructionResult.success r = true
    /\ ReconstructionResult.error r = None
    /\ ReconstructionResult.files r = processedFiles acc
    /\ ReconstructionResult.filesProcessed r = List.length (processedFiles acc)
    /\ ReconstructionResult.errors r = errors acc.
Proof.
  unfold reconstruct_matching. cbn [JS.map_size List.length Nat.eqb].
  rewrite bind_apply. unfold on_world at 1.
  destruct (Utils.ensureDirectoryExists out (world s0)) as [w1 [[]|e]];
    [|discriminate].
  cbv zeta. rewrite bind_apply. unfold on_world at 1. cbn [world this].
  destruct (reconstruct_loop_total (x :: l) (path_resolve src) out at_ meta
              empty_acc w1) as (w2 & acc & Hloop).
  rewrite Hloop. rewrite bind_apply.
  match goal with |- context [?m {| this := ?t; world := w2 |}] =>
    destruct (m {| this := t; world := w2 |}) as [s3 [[]|e]] end;
    [|discriminate].
  destruct at_ as [t0|].
  - rewrite bind_apply. unfold lift_res.
    destruct (Utils.formatTimestamp t0) as [iso|e]; [|discriminate].
    unfold ret. intros [= <- <-]. exists w1, w2, acc.
    repeat split; try reflexivity; exact Hloop.
  - unfold ret. intros [= <- <-]. exists w1, w2, acc.
    repeat split; try reflexivity; exact Hloop.
Qed.

(** With a file to process, a destination that could be made and the
    loop run to its end, the outcome of the call is that of the final
    step. *)
Lemma reconstruct_matching_run (src out : string) (meta : bool)
      (at_ : option Z) (x : string * TimelineFile.t)
      (l : list (string * TimelineFile.t)) (s1 : State World)
      (w1 w2 : World) (acc : Acc) :
  Utils.ensureDirectoryExists out (world s1) = (w1, Ok tt) ->
  reconstruct_loop (x :: l) (path_resolve src) out at_ meta empty_acc w1
  = (w2, Ok acc) ->
  reconstruct_matching src out meta at_ (x :: l) s1
  = match (if meta && (0 <? List.length (metadataEntries acc))%nat
           then exportMetadata out src (metadataEntries acc) at_ w2
           else (w2, Ok tt)) with
    | (w3, Throw e) => (mkState (this s1) w3, Throw e)
    | (w3, Ok _) =>
        match at_ with
        | None =>
            (mkState (this s1) w3,
             Ok (ReconstructionResult.mk true (Some out)
                   (List.length (processedFiles acc))
                   (processedFiles acc) (errors acc) None None None))
        | Some t0 =>
            match Utils.formatTimestamp t0 with
            | Ok iso =>
                (mkState (this s1) w3,
                 Ok (ReconstructionResult.mk true (Some out)
                       (List.length (processedFiles acc))
                       (processedFiles acc) (errors acc) (Some iso)
                       (Some (List.length (skippedFiles acc))) None))
            | Throw e => (mkState (this s1) w3, Throw e)
            end
        end
    end.
Proof.
  intros Hmk Hloop.
  unfold reconstruct_matching. cbn [JS.map_size List.length Nat.eqb].
  rewrite bind_apply. unfold on_world at 1. rewrite Hmk.
  cbv zeta. rewrite bind_apply. unfold on_world at 1. cbn [world this].
  rewrite Hloop. rewrite bind_apply.
  destruct (meta && (0 <? List.length (metadataEntries acc))%nat).
  - unfold on_world at 1. cbn [world this].
    destruct (exportMetadata out src (metadataEntries acc) at_ w2)
      as [w3 [[]|e]]; [|reflexivity].
    destruct at_ as [t0|]; [|reflexivity].
    rewrite bind_apply. unfold lift_res.
    destruct (Utils.formatTimestamp t0) as [iso|e]; reflexivity.
  - unfold ret at 1.
    destruct at_ as [t0|]; [|reflexivity].
    rewrite bind_apply. unfold lift_res.
    destruct (Utils.formatTimestamp t0) as [iso|e]; reflexivity.
Qed.

(** C7.  What a reconstruction call does, in every case.  A failing
    filter (that is, a failing scan) is the failure of the call.  With
    no match the call returns [success = false], no file processed and
    the no-files-found message.  With at least one match the
    destination is made, and a failure to make it is the failure of the
    call; otherwise the per-file loop always runs to its end, whatever
    the per-file errors and skips, and the call then returns a result
    with [success = true] and the accounts of the loop whenever the
    final step (writing the metadata document, if there is any
    metadata, and formatting the instant, if one was given) does not
    throw; a throw of that step is the only remaining failure of the
    call.  So a returned result has [success = false] exactly when
    nothing matched. *)
Theorem reconstructDirectory_success (src out : string) (meta : bool)
        (at_ : option Z) (s : State World) :
  match filterByDirectory src s with
  | (s1, Throw e) => reconstructDirectory src out meta at_ s = (s1, Throw e)
  | (s1, Ok []) =>
      reconstructDirectory src out meta at_ s
      = (s1, Ok (ReconstructionResult.mk false None 0 [] [] None None
                   (Some (no_files_found src))))
  | (s1, Ok ((_ :: _) as matching)) =>
      match Utils.ensureDirectoryExists out (world s1) with
      | (w1, Throw e) =>
          reconstructDirectory src out meta at_ s
          = (mkState (this s1) w1, Throw e)
      | (w1, Ok _) =>
          exists w2 acc,
            reconstruct_loop matching (path_resolve src) out at_ meta
              empty_acc w1 = (w2, Ok acc)
            /\ match (if meta && (0 <? List.length (metadataEntries acc))%nat
                      then exportMetadata out src (metadataEntries acc) at_ w2
                      else (w2, Ok tt)) with
               | (w3, Throw e) =>
                   reconstructDirectory src out meta at_ s
                   = (mkState (this s1) w3, Throw e)
               | (w3, Ok _) =>
                   match at_ with
                   | None =>
                       reconstructDirectory src out meta at_ s
                       = (mkState (this s1) w3,
                          Ok (ReconstructionResult.mk true (Some out)
                                (List.length (processedFiles acc))
                                (processedFiles acc) (errors acc)
                                None None None))
                   | Some t0 =>
                       match Utils.formatTimestamp t0 with
                       | Ok iso =>
                           reconstructDirectory src out meta at_ s
                           = (mkState (this s1) w3,
                              Ok (ReconstructionResult.mk true (Some out)
                                    (List.length (processedFiles acc))
                                    (processedFiles acc) (errors acc)
                                    (Some iso)
                                    (Some (List.length (skippedFiles acc)))
                                    None))
                       | Throw e =>
                           reconstructDirectory src out meta at_ s
                           = (mkState (this s1) w3, Throw e)
                       end
                   end
               end
      end
  end
  /\ forall s' r,
       reconstructDirectory src out meta at_ s = (s', Ok r) ->
       (ReconstructionResult.success r = false
        <-> snd (filterByDirectory src s) = Ok [])
       /\ (ReconstructionResult.success r = false ->
           ReconstructionResult.filesProcessed r = 0%nat
           /\ ReconstructionResult.error r = Some (no_files_found src)).
Proof.
  split.
  - rewrite reconstructDirectory_unfold, bind_apply.
    destruct (filterByDirectory src s) as [s1 [[|x l]|e]];
      [reflexivity| |reflexivity].
    destruct (Utils.ensureDirectoryExists out (world s1)) as [w1 [[]|e]] eqn:Hmk;
      [|now apply reconstruct_matching_mkdir_fails].
    destruct (reconstruct_loop_total (x :: l) (path_resolve src) out at_ meta
                empty_acc w1) as (w2 & acc & Hloop).
    exists w2, acc. split; [exact Hloop|].
    rewrite (reconstruct_matching_run src out meta at_ x l s1 w1 w2 acc Hmk Hloop).
    destruct (if meta && (0 <? List.length (metadataEntries acc))%nat
              then exportMetadata out src (metadataEntries acc) at_ w2
              else (w2, Ok tt)) as [w3 [[]|e]]; [|reflexivity].
    destruct at_ as [t0|]; [|reflexivity].
    destruct (Utils.formatTimestamp t0) as [iso|e]; reflexivity.
  - intros s' r. rewrite reconstructDirectory_unfold, bind_apply.
    destruct (filterByDirectory src s) as [s1 [[|x l]|e]]; [| |discriminate].
    + rewrite reconstruct_matching_none. intros [= _ <-].
      cbn [snd ReconstructionResult.success ReconstructionResult.filesProcessed
           ReconstructionResult.error].
      repeat split; reflexivity.
    + intros Hr.
      destruct (reconstruct_matching_fields _ _ _ _ _ _ _ _ _ Hr)
        as (_ & _ & _ & _ & _ & Hs & _).
      rewrite Hs. cbn [snd].
      split; [split; discriminate | discriminate].
Qed.

(** C8, as the code has it.  A matching file that resolves to a
    version, has a usable path relative to the source directory (not
    empty, not starting with [..]) and whose blob is absent when its
    turn comes adds exactly one entry, under its own path, to the error
    list; the files before and after it are processed as if it were not
    there: same files materialised, same skips, same metadata, same
    disk, and the same other errors around the new one. *)
Theorem missing_blob_is_one_error (l1 l2 : list (string * TimelineFile.t))
        (p : string) (f : TimelineFile.t) (src out : string)
        (at_ : option Z) (meta : bool) (acc acc1 : Acc) (w w1 : World)
        (e : FileEntry.t) (rel : string) :
  resolve_version f at_ = Some e ->
  calculateRelativePath p src = Some rel ->
  rel <> "" ->
  reconstruct_loop l1 src out at_ meta acc w = (w1, Ok acc1) ->
  fs_existsSync w1 (TimelineFile.getFileContentPath f e) = false ->
  exists w2 acc2 errs_after,
    reconstruct_loop (l1 ++ l2) src out at_ meta acc w = (w2, Ok acc2)
    /\ errors acc2 = errors acc1 ++ errs_after
    /\ reconstruct_loop (l1 ++ (p, f) :: l2) src out at_ meta acc w
       = (w2, Ok (mkAcc (processedFiles acc2) (skippedFiles acc2)
                        (errors acc1
                         ++ (p, ("Source file not found: "
                                 ++ TimelineFile.getFileContentPath f e)%string)
                            :: errs_after)
                        (metadataEntries acc2))).
Proof.
  intros Hres Hrel Hne Hl1 Hex.
  destruct (reconstruct_loop_outcome l2 src out at_ meta empty_acc w1)
    as (w2 & d & _ & Hshift).
  exists w2, (acc_app acc1 d), (errors d).
  split; [|split; [reflexivity|]].
  - rewrite (reconstruct_loop_app l1 l2 _ _ _ _ _ _ _ _ Hl1).
    rewrite <- (acc_app_empty acc1) at 1. apply Hshift.
  - rewrite (reconstruct_loop_app l1 ((p, f) :: l2) _ _ _ _ _ _ _ _ Hl1).
    unfold reconstruct_loop. cbn [for_of]. rewrite bind_apply, bind_apply.
    rewrite (processFile_missing_blob p f src out at_ meta w1 e rel
               Hres Hrel Hne Hex).
    unfold ret at 1.
    match goal with |- for_of ?body l2 ?a w1 = _ =>
      change (reconstruct_loop l2 src out at_ meta a w1 = 
              (w2, Ok (mkAcc (processedFiles (acc_app acc1 d))
                         (skippedFiles (acc_app acc1 d))
                         (errors acc1
                          ++ (p, ("Source file not found: "
                                  ++ TimelineFile.getFileContentPath f e)%string)
                             :: errors d)
                         (metadataEntries (acc_app acc1 d)))));
      rewrite <- (acc_app_empty a) end.
    rewrite Hshift. unfold collect, acc_app.
    cbn [processedFiles skippedFiles errors metadataEntries].
    now rewrite <- app_assoc.
Qed.

(** C4.  When no entry of the matching files is newer than the
    instant, resolution at the instant and latest-version resolution
    choose the same entry of every file; the per-file loop of a
    reconstruction at the instant and of one without an instant then
    coincide (same outcomes, same disk), and so do the files, counts
    and errors of the two results. *)
Theorem latest_is_resolution_at_late_instant
        (matching : list (string * TimelineFile.t)) (t0 : Z) :
  (forall p f e, In (p, f) matching -> In e (TimelineFile.entries f) ->
                 ts e <= t0) ->
  (forall p f, In (p, f) matching ->
               TimelineFile.latestEntry f
               = TimelineFile.getEntryAtTimestamp f t0)
  /\ (forall src out meta acc w,
        reconstruct_loop matching src out None meta acc w
        = reconstruct_loop matching src out (Some t0) meta acc w)
  /\ (forall src out meta s s0 s1 r1 s2 r2,
        filterByDirectory src s = (s0, Ok matching) ->
        reconstructDirectory src out meta None s = (s1, Ok r1) ->
        reconstructDirectory src out meta (Some t0) s = (s2, Ok r2) ->
        ReconstructionResult.success r1 = ReconstructionResult.success r2
        /\ ReconstructionResult.files r1 = ReconstructionResult.files r2
        /\ ReconstructionResult.filesProcessed r1
           = ReconstructionResult.filesProcessed r2
        /\ ReconstructionResult.errors r1 = ReconstructionResult.errors r2).
Proof.
  intros Hlate.
  assert (Hsame : forall p f, In (p, f) matching ->
            TimelineFile.latestEntry f = TimelineFile.getEntryAtTimestamp f t0).
  { intros p f Hin. symmetry. apply getEntryAtTimestamp_late.
    intros e He. exact (Hlate p f e Hin He). }
  assert (Hloop : forall src out meta acc w,
            reconstruct_loop matching src out None meta acc w
            = reconstruct_loop matching src out (Some t0) meta acc w).
  { intros. apply reconstruct_loop_same_versions. exact Hsame. }
  split; [exact Hsame|]. split; [exact Hloop|].
  intros src out meta s s0 s1 r1 s2 r2 Hfilter.
  rewrite !reconstructDirectory_unfold, !bind_apply, Hfilter.
  destruct matching as [|x l].
  - rewrite !reconstruct_matching_none. intros [= _ <-] [= _ <-].
    repeat split; reflexivity.
  - intros Hr1 Hr2.
    destruct (reconstruct_matching_fields _ _ _ _ _ _ _ _ _ Hr1)
      as (w1 & w2 & acc & Hmk & Hrun & Hs & _ & Hf & Hn & He).
    destruct (reconstruct_matching_fields _ _ _ _ _ _ _ _ _ Hr2)
      as (w1' & w2' & acc' & Hmk' & Hrun' & Hs' & _ & Hf' & Hn' & He').
    rewrite Hmk in Hmk'. injection Hmk' as <-.
    rewrite Hloop, Hrun' in Hrun. injection Hrun as <- <-.
    rewrite Hs, Hs', Hf, Hf', Hn, Hn', He, He'. repeat split; reflexivity.
Qed.

End ExtractorProperties.

(* ================================================================== *)
(** ** The properties on the example host *)

Section Scenarios.

Local Existing Instances Fixture.path Fixture.fs Fixture.url Fixture.date.

Import Extractor.

(** C1, at the failing inputs.  The directory [/foo] selects the tracked
    file [/foobar/x], and [/a/proj] selects [/a/project/x]: neither path
    equals the directory or continues it with a separator, but each
    starts with its characters, which the second disjunct of the test
    accepts. *)
Theorem filterByDirectory_admits_sibling_prefix :
  path_resolve "/foo" = "/foo"
  /\ JS.startsWith "/foobar/x" "/foo/" = false
  /\ filterByDirectory "/foo" Fixture.state_siblings
     = (Fixture.state_siblings,
        Ok [("/foobar/x", Fixture.file_of [Fixture.version "x1" 1])])
  /\ path_resolve "/a/proj" = "/a/proj"
  /\ JS.startsWith "/a/project/x" "/a/proj/" = false
  /\ filterByDirectory "/a/proj" Fixture.state_siblings
     = (Fixture.state_siblings,
        Ok [("/a/project/x", Fixture.file_of [Fixture.version "x2" 2])]).
Proof. repeat split; vm_compute; reflexivity. Qed.

(** C2, refuted as stated: a rescan that cannot enumerate the store
    root leaves an empty index where three files were known, and
    [scanned] still set, so later readers are served the empty index. *)
Lemma failed_rescan_empties_index :
  timelineFiles (this Fixture.state3) = Fixture.index3
  /\ scanTimeline Fixture.state3
     = (mkState (mk "/store" [] true) Fixture.disk3,
        Throw "Error: ENOENT: no such file or directory, scandir '/store'")
  /\ getAllFiles (mkState (mk "/store" [] true) Fixture.disk3)
     = (mkState (mk "/store" [] true) Fixture.disk3, Ok []).
Proof. repeat split; vm_compute; reflexivity. Qed.

(** The scenario of the three files: two are materialised, the one
    without its blob is the single error, and the whole succeeds. *)
Example three_files_one_blob_deleted :
  snd (reconstructDirectory "/work/proj" "/out" true None Fixture.state3)
  = Ok (ReconstructionResult.mk true (Some "/out") 2 ["a.txt"; "c.txt"]
          [("/work/proj/b.txt", "Source file not found: /store/b.txt/b1")]
          None None None).
Proof. vm_compute. reflexivity. Qed.

(** A directory under which nothing is tracked. *)
Example no_matching_files :
  snd (reconstructDirectory "/work/other" "/out" true None Fixture.state3)
  = Ok (ReconstructionResult.mk false None 0 [] [] None None
          (Some "No files found for directory: /work/other")).
Proof. vm_compute. reflexivity. Qed.

(** C7, witnessed on the three files.  At the instant 250 [a.txt] is
    materialised, [b.txt] has no blob and [c.txt] did not exist yet:
    the point-in-time call returns, with [success = true] beside the
    per-file error and the skip.  Under a directory where nothing is
    tracked the call returns too, and its result is the failure with
    the message. *)
Lemma reconstructDirectory_success_witness :
  (exists s',
     reconstructDirectory "/work/proj" "/out" true (Some 250) Fixture.state3
     = (s', Ok (ReconstructionResult.mk true (Some "/out") 1 ["a.txt"]
                  [("/work/proj/b.txt", "Source file not found: /store/b.txt/b1")]
                  (Some "1970-01-01T00:00:00.250Z") (Some 1%nat) None)))
  /\ exists s' r,
       reconstructDirectory "/work/other" "/out" true None Fixture.state3
       = (s', Ok r)
       /\ ReconstructionResult.success r = false
       /\ ReconstructionResult.filesProcessed r = 0%nat
       /\ ReconstructionResult.error r
          = Some "No files found for directory: /work/other".
Proof.
  split.
  - destruct (reconstructDirectory_success "/work/proj" "/out" true (Some 250)
                Fixture.state3) as [Hthm _].
    assert (Hf : filterByDirectory "/work/proj" Fixture.state3
                 = (Fixture.state3, Ok Fixture.index3))
      by (vm_compute; reflexivity).
    rewrite Hf in Hthm.
    assert (Hmk : Utils.ensureDirectoryExists "/out" (world Fixture.state3)
                  = (MemFs.mk (MemFs.files Fixture.disk3) [("/out", [])]
                       (MemFs.clock Fixture.disk3), Ok tt))
      by (vm_compute; reflexivity).
    cbv beta iota delta [Fixture.index3] in Hthm. rewrite Hmk in Hthm.
    destruct Hthm as (w2 & acc & Hloop & Hres).
    vm_compute in Hloop. injection Hloop as <- <-.
    vm_compute in Hres.
    eexists. rewrite Hres. vm_compute. reflexivity.
  - destruct (reconstructDirectory_success "/work/other" "/out" true None
                Fixture.state3) as [_ Hret].
    destruct (reconstructDirectory "/work/other" "/out" true None Fixture.state3)
      as [s' [r|e]] eqn:Hrun; [|vm_compute in Hrun; discriminate Hrun].
    exists s', r. split; [reflexivity|].
    destruct (Hret s' r eq_refl) as [Hiff Hfail].
    assert (Hs : ReconstructionResult.success r = false)
      by (apply Hiff; vm_compute; reflexivity).
    split; [exact Hs|]. exact (Hfail Hs).
Defined.

(** C8, witnessed on the three files, [b.txt] being the one without
    its blob, between [a.txt] and [c.txt]. *)
Lemma missing_blob_is_one_error_witness :
  let fb := snd (Fixture.tracked "b.txt" "b1" 200) in
  let vb := Fixture.version "b1" 200 in
  resolve_version fb None = Some vb
  /\ calculateRelativePath "/work/proj/b.txt" "/work/proj" = Some "b.txt"
  /\ "b.txt" <> ""
  /\ reconstruct_loop [Fixture.tracked "a.txt" "a1" 100] "/work/proj" "/out"
       None false empty_acc Fixture.disk3
     = (Fixture.disk3_after_a, Ok (mkAcc ["a.txt"] [] [] []))
  /\ fs_existsSync Fixture.disk3_after_a (TimelineFile.getFileContentPath fb vb)
     = false
  /\ exists w2 acc2 errs_after,
       reconstruct_loop
         ([Fixture.tracked "a.txt" "a1" 100] ++ [Fixture.tracked "c.txt" "c1" 300])
         "/work/proj" "/out" None false empty_acc Fixture.disk3
       = (w2, Ok acc2)
       /\ errors acc2 = errors (mkAcc ["a.txt"] [] [] []) ++ errs_after
       /\ reconstruct_loop
            ([Fixture.tracked "a.txt" "a1" 100]
             ++ ("/work/proj/b.txt", fb) :: [Fixture.tracked "c.txt" "c1" 300])
            "/work/proj" "/out" None false empty_acc Fixture.disk3
          = (w2, Ok (mkAcc (processedFiles acc2) (skippedFiles acc2)
                       (errors (mkAcc ["a.txt"] [] [] [])
                        ++ ("/work/proj/b.txt",
                            ("Source file not found: "
                             ++ TimelineFile.getFileContentPath fb vb)%string)
                           :: errs_after)
                       (metadataEntries acc2))).
Proof.
  intros fb vb.
  assert (H1 : resolve_version fb None = Some vb) by reflexivity.
  assert (H2 : calculateRelativePath "/work/proj/b.txt" "/work/proj"
               = Some "b.txt") by (vm_compute; reflexivity).
  assert (H3 : "b.txt" <> "") by discriminate.
  assert (H4 : reconstruct_loop [Fixture.tracked "a.txt" "a1" 100]
                 "/work/proj" "/out" None false empty_acc Fixture.disk3
               = (Fixture.disk3_after_a, Ok (mkAcc ["a.txt"] [] [] [])))
    by (vm_compute; reflexivity).
  assert (H5 : fs_existsSync Fixture.disk3_after_a
                 (TimelineFile.getFileContentPath fb vb) = false)
    by (vm_compute; reflexivity).
  repeat (split; [assumption|]).
  exact (missing_blob_is_one_error
           [Fixture.tracked "a.txt" "a1" 100] [Fixture.tracked "c.txt" "c1" 300]
           "/work/proj/b.txt" fb "/work/proj" "/out" None false empty_acc
           (mkAcc ["a.txt"] [] [] []) Fixture.disk3 Fixture.disk3_after_a
           vb "b.txt" H1 H2 H3 H4 H5).
Defined.

(** C8, refuted as stated: the tracked path [/work/proj] matches the
    directory [/work/proj], resolves to a version and has no blob on
    disk, yet no error is recorded for it: its relative path is empty
    and the file is skipped before the blob is looked for. *)
Lemma missing_blob_skipped_without_error :
  let f := TimelineFile.mk "file:///work/proj" "/store/proj"
             [Fixture.version "p1" 100] in
  filterByDirectory "/work/proj" Fixture.state_self
    = (Fixture.state_self, Ok [("/work/proj", f)])
  /\ resolve_version f None = Some (Fixture.version "p1" 100)
  /\ fs_existsSync (world Fixture.state_self)
       (TimelineFile.getFileContentPath f (Fixture.version "p1" 100)) = false
  /\ snd (reconstructDirectory "/work/proj" "/out" true None Fixture.state_self)
     = Ok (ReconstructionResult.mk true (Some "/out") 0 [] [] None None None).
Proof. repeat split; vm_compute; reflexivity. Qed.

(** C4, witnessed on the three files at the instant of the newest
    version. *)
Lemma latest_is_resolution_at_late_instant_witness :
  (forall p f e, In (p, f) Fixture.index3 -> In e (TimelineFile.entries f) ->
                 ts e <= 300)
  /\ (forall p f, In (p, f) Fixture.index3 ->
                  TimelineFile.latestEntry f
                  = TimelineFile.getEntryAtTimestamp f 300)
  /\ reconstruct_loop Fixture.index3 "/work/proj" "/out" None true empty_acc
       Fixture.disk3
     = reconstruct_loop Fixture.index3 "/work/proj" "/out" (Some 300) true
         empty_acc Fixture.disk3.
Proof.
  assert (Hlate : forall p f e, In (p, f) Fixture.index3 ->
                    In e (TimelineFile.entries f) -> ts e <= 300).
  { intros p f e [Hx | [Hx | [Hx | []]]]; injection Hx as _ <-;
      (intros [<- | []]); vm_compute; discriminate. }
  split; [exact Hlate|].
  destruct (latest_is_resolution_at_late_instant Fixture.index3 300 Hlate)
    as (Hsame & Hloop & _).
  split; [exact Hsame | apply Hloop].
Defined.

End Scenarios.

(* ================================================================== *)
(** ** Further properties of the versions of a file *)

Section Versions.

Import TimelineFile.

Lemma older_cases (a e : FileEntry.t) :
  (older a e = e /\ ts e < ts a) \/ (older a e = a /\ ts a <= ts e).
Proof.
  unfold older. destruct (Z.ltb_spec (ts e) (ts a)); [left | right]; split; auto.
Qed.

(** The winner of a left-to-right scan with [older]. *)
Lemma fold_older_position (rest : list FileEntry.t) :
  forall first,
  exists l1 l2,
    first :: rest = l1 ++ fold_left older rest first :: l2
    /\ (forall e, In e l1 -> ts (fold_left older rest first) < ts e)
    /\ (forall e, In e l2 -> ts (fold_left older rest first) <= ts e).
Proof.
  induction rest as [|x xs IH]; intros first; simpl.
  - exists [], []. simpl. repeat split; intros e [].
  - destruct (older_cases first x) as [[-> Hlt] | [-> Hle]].
    + destruct (IH x) as (l1 & l2 & Heq & Hb & Ha).
      exists (first :: l1), l2. split; [simpl; now rewrite Heq|].
      split; auto. intros e [<- | Hin]; auto.
      destruct l1 as [|y l1']; simpl in Heq; injection Heq as Hx _.
      * rewrite <- Hx. exact Hlt.
      * subst y. specialize (Hb x (or_introl eq_refl)). lia.
    + destruct (IH first) as (l1 & l2 & Heq & Hb & Ha).
      destruct l1 as [|y l1']; simpl in Heq; injection Heq as Hx Hxs.
      * exists [], (x :: l2). rewrite <- Hx in *. rewrite Hxs. simpl.
        split; [reflexivity|]. split; [intros e []|].
        intros e [<- | Hin]; [exact Hle | auto].
      * subst y. exists (first :: x :: l1'), l2.
        split; [simpl; do 2 f_equal; exact Hxs|]. split; auto.
        pose proof (Hb first (or_introl eq_refl)) as Hf.
        intros e [<- | [<- | Hin]]; [exact Hf | lia | apply Hb; now right].
Qed.

(** X1.  [oldestEntry] is the first entry of the list with the minimal
    timestamp: every entry before it is strictly newer, no entry after it
    is older; it is absent exactly for a file without entries. *)
Theorem oldestEntry_first_minimum (f : t) :
  match oldestEntry f with
  | Some e =>
      exists l1 l2,
        entries f = l1 ++ e :: l2
        /\ (forall e', In e' l1 -> ts e < ts e')
        /\ (forall e', In e' l2 -> ts e <= ts e')
  | None => entries f = []
  end.
Proof.
  unfold oldestEntry. destruct (entries f) as [|first rest]; simpl; [reflexivity|].
  apply fold_older_position.
Qed.

(** What [getEntryAtTimestamp] returns, and when it returns nothing. *)
Lemma getEntryAtTimestamp_some (f : t) (t0 : Z) (e : FileEntry.t) :
  getEntryAtTimestamp f t0 = Some e ->
  In e (entries f) /\ ts e <= t0
  /\ forall e', In e' (entries f) -> ts e' <= t0 -> ts e' <= ts e.
Proof.
  intros Hres.
  destruct (getEntryAtTimestamp_position _ _ _ Hres)
    as (l1 & l2 & Hl & Hle & Hb & Ha).
  split; [rewrite Hl; apply in_or_app; right; now left|].
  split; [exact Hle|].
  intros e' Hin Hq. rewrite Hl in Hin.
  apply in_app_or in Hin. destruct Hin as [Hin | [<- | Hin]].
  - specialize (Hb e' Hin Hq). lia.
  - lia.
  - exact (Ha e' Hin Hq).
Qed.

Lemma getEntryAtTimestamp_none (f : t) (t0 : Z) :
  getEntryAtTimestamp f t0 = None ->
  forall e', In e' (entries f) -> t0 < ts e'.
Proof.
  unfold getEntryAtTimestamp. intros Hres. apply reduce_guarded_none in Hres.
  intros e' Hin. destruct (Z.leb_spec (ts e') t0) as [Hq|Hq]; [|exact Hq].
  assert (Hf : In e' (filter (fun e => ts e <=? t0) (entries f))).
  { apply in_filtered; auto. now apply Z.leb_le. }
  rewrite Hres in Hf. destruct Hf.
Qed.

(** X2.  Resolution is monotone in the instant: a file that has a version
    at [t1] has one at every later [t2], and that one is not older. *)
Theorem getEntryAtTimestamp_monotone (f : t) (t1 t2 : Z) (e1 : FileEntry.t) :
  t1 <= t2 ->
  getEntryAtTimestamp f t1 = Some e1 ->
  exists e2, getEntryAtTimestamp f t2 = Some e2 /\ ts e1 <= ts e2.
Proof.
  intros Ht H1.
  destruct (getEntryAtTimestamp_some _ _ _ H1) as (Hin & Hle & _).
  destruct (getEntryAtTimestamp f t2) as [e2|] eqn:H2.
  - exists e2. split; [reflexivity|].
    destruct (getEntryAtTimestamp_some _ _ _ H2) as (_ & _ & Hmax).
    apply Hmax; [exact Hin | lia].
  - pose proof (getEntryAtTimestamp_none _ _ H2 e1 Hin). lia.
Qed.

(** X3.  Whatever the instant, the version resolved lies between the
    oldest and the latest version of the file, which then both exist. *)
Theorem getEntryAtTimestamp_between (f : t) (t0 : Z) (e : FileEntry.t) :
  getEntryAtTimestamp f t0 = Some e ->
  exists lo hi,
    oldestEntry f = Some lo /\ latestEntry f = Some hi
    /\ ts lo <= ts e <= ts hi.
Proof.
  intros Hres. destruct (getEntryAtTimestamp_some _ _ _ Hres) as (Hin & _ & _).
  pose proof (fold_older_position) as Hold.
  pose proof (fold_newer_position) as Hnew.
  unfold oldestEntry, latestEntry.
  destruct (entries f) as [|first rest]; [destruct Hin|]. simpl.
  exists (fold_left older rest first), (fold_left newer rest first).
  split; [reflexivity|]. split; [reflexivity|].
  destruct (Hold rest first) as (a1 & a2 & Ha & Ha1 & Ha2).
  destruct (Hnew rest first) as (b1 & b2 & Hb & Hb1 & Hb2).
  split.
  - rewrite Ha in Hin. apply in_app_or in Hin.
    destruct Hin as [Hin | [<- | Hin]]; [specialize (Ha1 e Hin); lia | lia | auto].
  - rewrite Hb in Hin. apply in_app_or in Hin.
    destruct Hin as [Hin | [<- | Hin]]; [specialize (Hb1 e Hin); lia | lia | auto].
Qed.

(** *** [sortedEntries] *)

Lemma sort_insert_perm (x : FileEntry.t) (l : list FileEntry.t) :
  Permutation (x :: l) (JS.sort_insert by_newest x l).
Proof.
  induction l as [|y l IH]; cbn [JS.sort_insert]; [apply Permutation_refl|].
  destruct (by_newest x y <=? 0); [apply Permutation_refl|].
  apply perm_trans with (y :: x :: l); [apply perm_swap|].
  now apply perm_skip.
Qed.

Lemma sort_insert_sorted (x : FileEntry.t) (l : list FileEntry.t) :
  StronglySorted (fun a b => ts b <= ts a) l ->
  StronglySorted (fun a b => ts b <= ts a) (JS.sort_insert by_newest x l).
Proof.
  induction 1 as [|y l Hs IH Hall]; cbn [JS.sort_insert].
  - constructor; constructor.
  - unfold by_newest at 1. destruct (Z.leb_spec (ts y - ts x) 0) as [Hle|Hgt].
    + constructor; [now constructor|].
      constructor; [lia|].
      eapply Forall_impl; [|exact Hall]. cbn. intros a Ha. lia.
    + constructor; [exact IH|].
      apply (Permutation_Forall (sort_insert_perm x l)).
      constructor; [lia | exact Hall].
Qed.

(** Inserting does not move an entry across another of its timestamp. *)
Lemma sort_insert_filter (t0 : Z) (x : FileEntry.t) (l : list FileEntry.t) :
  filter (fun e => ts e =? t0) (JS.sort_insert by_newest x l)
  = filter (fun e => ts e =? t0) (x :: l).
Proof.
  induction l as [|y l IH]; cbn [JS.sort_insert]; [reflexivity|].
  unfold by_newest at 1. destruct (Z.leb_spec (ts y - ts x) 0) as [Hle|Hgt];
    [reflexivity|].
  cbn [filter] in *. rewrite IH.
  destruct (Z.eqb_spec (ts x) t0) as [Hx|Hx]; [|reflexivity].
  destruct (Z.eqb_spec (ts y) t0) as [Hy|Hy]; [lia | reflexivity].
Qed.

Lemma fold_newer_pick (l : list FileEntry.t) :
  forall x, fold_left newer l x = pick x (reduce_guarded newer l).
Proof.
  induction l as [|y l IH]; intros x; [reflexivity|].
  cbn [fold_left reduce_guarded]. rewrite (IH (newer x y)), (IH y).
  generalize (reduce_guarded newer l). intros [m|]; unfold pick, newer.
  - destruct (Z.gtb_spec (ts y) (ts x)); cbn beta iota;
      destruct (Z.gtb_spec (ts m) (ts y)); cbn beta iota;
      try destruct (Z.gtb_spec (ts m) (ts x)); cbn beta iota;
      try destruct (Z.gtb_spec (ts y) (ts x)); try reflexivity; lia.
  - reflexivity.
Qed.

Lemma sort_head_pick (x : FileEntry.t) (l : list FileEntry.t) :
  hd_error (JS.sort by_newest (x :: l))
  = Some (pick x (hd_error (JS.sort by_newest l))).
Proof.
  cbn [JS.sort fold_right]. fold (JS.sort by_newest l).
  destruct (JS.sort by_newest l) as [|y s]; [reflexivity|].
  cbn [JS.sort_insert hd_error pick]. unfold by_newest.
  destruct (Z.leb_spec (ts y - ts x) 0), (Z.gtb_spec (ts y) (ts x));
    try reflexivity; lia.
Qed.

Lemma sort_head_latest (l : list FileEntry.t) :
  hd_error (JS.sort by_newest l) = reduce_guarded newer l.
Proof.
  induction l as [|x l IH]; [reflexivity|].
  rewrite sort_head_pick, IH. cbn [reduce_guarded]. now rewrite fold_newer_pick.
Qed.

Lemma sort_perm (l : list FileEntry.t) :
  Permutation l (JS.sort by_newest l).
Proof.
  induction l as [|x l IH]; [apply perm_nil|].
  cbn [JS.sort fold_right]. fold (JS.sort by_newest l).
  apply perm_trans with (x :: JS.sort by_newest l);
    [now apply perm_skip | apply sort_insert_perm].
Qed.

(** X4.  [sortedEntries] holds the entries of the file, each as often as
    the file does, in non-increasing order of timestamp; entries of equal
    timestamp keep the order they have in the file; and the first of them
    is [latestEntry]. *)
Theorem sortedEntries_spec (f : t) :
  Permutation (entries f) (sortedEntries f)
  /\ StronglySorted (fun a b => ts b <= ts a) (sortedEntries f)
  /\ (forall t0, filter (fun e => ts e =? t0) (sortedEntries f)
                 = filter (fun e => ts e =? t0) (entries f))
  /\ hd_error (sortedEntries f) = latestEntry f.
Proof.
  unfold sortedEntries, latestEntry.
  split; [|split; [|split]].
  - apply sort_perm.
  - induction (entries f) as [|x l IH]; [constructor|].
    cbn [JS.sort fold_right]. now apply sort_insert_sorted.
  - intros t0. induction (entries f) as [|x l IH]; [reflexivity|].
    cbn [JS.sort fold_right]. fold (JS.sort by_newest l).
    rewrite sort_insert_filter. cbn [filter]. now rewrite IH.
  - apply sort_head_latest.
Qed.

(** *** The version numbers of the tree view *)

Lemma map_index_entries (f : t) (n : nat) (l : list FileEntry.t) :
  forall i,
    map VersionsTreeProvider.entry
        (VersionsTreeProvider.map_index
           (fun entry index => VersionsTreeProvider.mkItem f entry (n - index)%nat)
           l i) = l
    /\ map VersionsTreeProvider.versionNumber
           (VersionsTreeProvider.map_index
              (fun entry index => VersionsTreeProvider.mkItem f entry (n - index)%nat)
              l i)
       = map (fun j => (n - j)%nat) (seq i (List.length l))
    /\ Forall (fun item => VersionsTreeProvider.timelineFile item = f)
              (VersionsTreeProvider.map_index
                 (fun entry index => VersionsTreeProvider.mkItem f entry (n - index)%nat)
                 l i).
Proof.
  induction l as [|x l IH]; intros i; cbn; [repeat split; constructor|].
  destruct (IH (S i)) as (He & Hn & Hf).
  rewrite He, Hn. repeat split. constructor; [reflexivity | exact Hf].
Qed.

Lemma countdown_seq (n : nat) :
  map (fun j => (n - j)%nat) (seq 0 n) = rev (seq 1 n).
Proof.
  induction n as [|n IH]; [reflexivity|].
  assert (Hshift : map (fun j => (S n - j)%nat) (seq 1 n)
                   = map (fun j => (n - j)%nat) (seq 0 n))
    by (rewrite <- seq_shift, map_map; reflexivity).
  rewrite (seq_S n 1), rev_app_distr. cbn [rev app seq map Nat.add].
  rewrite Hshift, IH. reflexivity.
Qed.

(** X5.  The tree view lists the versions of the current file newest
    first, numbered downwards from the number of versions to 1: the items
    carry [sortedEntries] in order, so the first item, numbered
    [versionCount], is [latestEntry]. *)
Theorem getChildren_numbering (f : t) :
  let items := VersionsTreeProvider.getChildren (Some f) None in
  map VersionsTreeProvider.entry items = sortedEntries f
  /\ map VersionsTreeProvider.versionNumber items
     = rev (seq 1 (versionCount f))
  /\ Forall (fun item => VersionsTreeProvider.timelineFile item = f) items
  /\ option_map VersionsTreeProvider.entry (hd_error items) = latestEntry f.
Proof.
  cbn zeta. unfold VersionsTreeProvider.getChildren.
  destruct (map_index_entries f (List.length (sortedEntries f))
              (sortedEntries f) 0%nat) as (He & Hn & Hf).
  split; [exact He|]. split; [|split; [exact Hf|]].
  - rewrite Hn, countdown_seq. unfold versionCount.
    f_equal. f_equal. symmetry. apply Permutation_length.
    apply sort_perm.
  - unfold latestEntry. rewrite <- sort_head_latest. fold (sortedEntries f).
    rewrite <- He.
    now destruct (VersionsTreeProvider.map_index _ (sortedEntries f) 0%nat).
Qed.

End Versions.

(** X2, witnessed: versions at 100 and 300, resolved at 150 and at 400. *)
Lemma getEntryAtTimestamp_monotone_witness :
  let f := Fixture.file_of [Fixture.version "a" 100; Fixture.version "b" 300] in
  150 <= 400
  /\ TimelineFile.getEntryAtTimestamp f 150 = Some (Fixture.version "a" 100)
  /\ exists e2, TimelineFile.getEntryAtTimestamp f 400 = Some e2 /\ 100 <= ts e2.
Proof.
  intros f.
  assert (Ht : 150 <= 400) by lia.
  assert (H1 : TimelineFile.getEntryAtTimestamp f 150
               = Some (Fixture.version "a" 100)) by reflexivity.
  split; [exact Ht|]. split; [exact H1|].
  exact (getEntryAtTimestamp_monotone f 150 400 _ Ht H1).
Defined.

(** X3, witnessed on the same file at 150. *)
Lemma getEntryAtTimestamp_between_witness :
  let f := Fixture.file_of [Fixture.version "a" 100; Fixture.version "b" 300] in
  TimelineFile.getEntryAtTimestamp f 150 = Some (Fixture.version "a" 100)
  /\ exists lo hi,
       TimelineFile.oldestEntry f = Some lo /\ TimelineFile.latestEntry f = Some hi
       /\ ts lo <= 100 <= ts hi.
Proof.
  intros f.
  assert (H1 : TimelineFile.getEntryAtTimestamp f 150
               = Some (Fixture.version "a" 100)) by reflexivity.
  split; [exact H1|].
  exact (getEntryAtTimestamp_between f 150 _ H1).
Defined.

(* ================================================================== *)
(** ** Further properties of the utilities *)

Section MoreUtils.

Import Number.

Lemma round_nonneg_not_nan (v : Z) : isNaN (round_nonneg v) = false.
Proof.
  unfold round_nonneg. destruct (v <? 2 ^ 53); [reflexivity|].
  cbv zeta. destruct (2 ^ 1024 <=? _); reflexivity.
Qed.

Lemma round_double_not_nan (v : Z) : isNaN (round_double v) = false.
Proof.
  unfold round_double. destruct (v <? 0); [|apply round_nonneg_not_nan].
  pose proof (round_nonneg_not_nan (- v)) as Hn.
  destruct (round_nonneg (- v)); [discriminate Hn | reflexivity | reflexivity].
Qed.

Context `{DateApi}.

(** X6.  [parseTimestamp] throws exactly on a string that is not all
    digits, that [Date] does not parse and that has not the form of a bare
    date; the error then quotes the string.  Every other string yields a
    number. *)
Theorem parseTimestamp_throws_iff (s e : string) :
  Utils.parseTimestamp s = Throw e
  <-> all_digits s = false
      /\ isNaN (Date_parse s) = true
      /\ Utils.match_date_only s = None
      /\ e = Utils.unable_to_parse s.
Proof.
  unfold Utils.parseTimestamp.
  destruct (all_digits s) eqn:Hd.
  - rewrite (parseInt_all_digits s Hd), round_double_not_nan. cbn [negb andb].
    split.
    + destruct (ltb _ _); discriminate.
    + intros (Hf & _). discriminate Hf.
  - rewrite andb_false_r.
    destruct (isNaN (Date_parse s)) eqn:Hp; cbn [negb].
    + destruct (Utils.match_date_only s) as [[[y m] d]|] eqn:Hm.
      * split.
        -- destruct (parseInt y) as [|yy|]; try discriminate;
             destruct (parseInt m) as [|mm|]; try discriminate;
             destruct (parseInt d) as [|dd|]; discriminate.
        -- intros (_ & _ & Hnone & _). discriminate Hnone.
      * split.
        -- intros [= <-]. repeat split; reflexivity.
        -- intros (_ & _ & _ & ->). reflexivity.
    + split; [discriminate|]. intros (_ & Hnan & _). discriminate Hnan.
Qed.

(** *** [getRelativeTime] *)

Lemma toString_first (z : Z) :
  exists c r, toString z = String c r /\ c <> "J"%char.
Proof.
  unfold toString. destruct (z <? 0).
  - eexists. eexists. split; [reflexivity | discriminate].
  - destruct (N.to_uint (Z.to_N z)); cbn; eexists; eexists;
      (split; [reflexivity | discriminate]).
Qed.

Lemma ago_not_just_now (count : Z) (unit_ : string) :
  Utils.ago count unit_ <> "Just now".
Proof.
  unfold Utils.ago. destruct (toString_first count) as (c & r & -> & Hc).
  cbn [String.append]. intros [= Heq _]. now apply Hc.
Qed.

Lemma div_below (a k : Z) : 0 < k -> a < k -> a / k <= 0.
Proof.
  intros Hk Ha. assert (a / k < 1); [|lia].
  apply Z.div_lt_upper_bound; lia.
Qed.

(** X7.  [getRelativeTime] answers ["Just now"] exactly when the
    timestamp is less than a minute old, or lies in the future; from one
    minute on it answers with a count of at least 1 of one of its six
    units. *)
Theorem getRelativeTime_just_now (now timestampMs : Z) :
  (Utils.getRelativeTime now timestampMs = "Just now"
   <-> now - timestampMs < 60000)
  /\ (60000 <= now - timestampMs ->
      exists count unit_,
        1 <= count
        /\ In unit_ ["year"; "month"; "week"; "day"; "hour"; "minute"]
        /\ Utils.getRelativeTime now timestampMs = Utils.ago count unit_).
Proof.
  assert (Hold : 60000 <= now - timestampMs ->
            exists count unit_,
              1 <= count
              /\ In unit_ ["year"; "month"; "week"; "day"; "hour"; "minute"]
              /\ Utils.getRelativeTime now timestampMs = Utils.ago count unit_).
  { intros Hd. unfold Utils.getRelativeTime. cbv zeta.
    set (minutes := (now - timestampMs) / 1000 / 60).
    assert (Hm : 1 <= minutes).
    { unfold minutes. apply Z.div_le_lower_bound; [lia|].
      apply Z.div_le_lower_bound; lia. }
    repeat match goal with |- context [?a >? 0] =>
      destruct (Z.gtb_spec a 0) end;
      try (eexists; eexists; split; [|split; [|reflexivity]];
           [lia | cbn; tauto]).
    lia. }
  split; [|exact Hold].
  split.
  - intros Hjust.
    destruct (Z.lt_ge_cases (now - timestampMs) 60000) as [Hlt|Hge]; [exact Hlt|].
    destruct (Hold Hge) as (count & unit_ & _ & _ & Hago).
    rewrite Hago in Hjust. now apply ago_not_just_now in Hjust.
  - intros Hlt. unfold Utils.getRelativeTime. cbv zeta.
    set (seconds := (now - timestampMs) / 1000).
    assert (Hs : seconds < 60).
    { unfold seconds. apply Z.div_lt_upper_bound; lia. }
    assert (Hmin : seconds / 60 <= 0) by (apply div_below; lia).
    assert (Hh : seconds / 60 / 60 <= 0) by (apply div_below; lia).
    assert (Hd : seconds / 60 / 60 / 24 <= 0) by (apply div_below; lia).
    assert (Hw : seconds / 60 / 60 / 24 / 7 <= 0) by (apply div_below; lia).
    assert (Hmo : seconds / 60 / 60 / 24 / 30 <= 0) by (apply div_below; lia).
    assert (Hy : seconds / 60 / 60 / 24 / 365 <= 0) by (apply div_below; lia).
    repeat match goal with |- context [?a >? 0] =>
      destruct (Z.gtb_spec a 0); [lia|] end.
    reflexivity.
Qed.

End MoreUtils.

(* ================================================================== *)
(** ** Further properties of the extractor *)

Section MoreExtractor.

Context {World : Type} `{FsApi World} `{PathApi} `{UrlApi} `{DateApi} `{OsApi}.

Import Extractor.

(** *** The index a scan builds *)

Lemma map_set_key_In {V : Type} (m : list (string * V)) (k : string) (v : V)
      (x : string) :
  In x (map fst (JS.map_set m k v)) -> In x (map fst m) \/ x = k.
Proof.
  intros Hin. apply in_map_iff in Hin. destruct Hin as ([k0 v0] & <- & Hin).
  destruct (map_set_In _ _ _ _ Hin) as [Hm | [= -> ->]]; [|now right].
  left. apply in_map_iff. now exists (k0, v0).
Qed.

Lemma map_set_NoDup {V : Type} (m : list (string * V)) (k : string) (v : V) :
  NoDup (map fst m) -> NoDup (map fst (JS.map_set m k v)).
Proof.
  induction m as [|[k' v'] m IH]; cbn [JS.map_set map fst]; intros Hnd.
  - constructor; [intros [] | constructor].
  - inversion Hnd as [|? ? Hnotin Hnd']; subst.
    destruct (String.eqb_spec k' k) as [->|Hne]; cbn [map fst].
    + now constructor.
    + constructor; [|now apply IH].
      intros Hin. destruct (map_set_key_In _ _ _ _ Hin) as [Hm | ->];
        [now apply Hnotin | now apply Hne].
Qed.

Lemma index_ok_set (idx : list (string * TimelineFile.t)) (f : TimelineFile.t) :
  index_ok idx -> TimelineFile.originalPath f <> "" ->
  index_ok (JS.map_set idx (TimelineFile.relativePath f) f).
Proof.
  intros [Hnd Hall] Hres. split; [now apply map_set_NoDup|].
  intros k f0 Hin. destruct (map_set_In _ _ _ _ Hin) as [Hm | [= -> ->]];
    [now apply Hall | now split].
Qed.

(** One entry of the store either leaves the state as it is, or puts the
    file of its manifest into the index. *)
Lemma scan_item_cases (item : Dirent.t) (s : State World) :
  scan_item item s = (s, Ok tt)
  \/ exists f,
       TimelineFile.originalPath f <> ""
       /\ scan_item item s
          = (with_timelineFiles
               (JS.map_set (timelineFiles (this s)) (TimelineFile.relativePath f) f)
               s, Ok tt).
Proof.
  unfold scan_item.
  destruct (Dirent.isDirectory item); cbn [negb]; [|now left].
  cbv beta iota delta [parseEntriesFile try_catch set_timelineFiles modify
                       ret gets bind].
  match goal with |- context [fs_existsSync ?w ?p] =>
    destruct (fs_existsSync w p) end; cbn [negb]; [|now left].
  match goal with |- context [fs_readManifest ?w ?p] =>
    destruct (fs_readManifest w p) as [data|e] end; [|now left].
  destruct (Manifest.resource data) as [[|c r]|]; [now left| |now left].
  right. eexists. split; [|reflexivity]. discriminate.
Qed.

Lemma scan_loop_index_ok (items : list Dirent.t) :
  forall s,
    index_ok (timelineFiles (this s)) ->
    exists idx,
      for_of (fun _ item => scan_item item) items tt s
      = (with_timelineFiles idx s, Ok tt)
      /\ index_ok idx.
Proof.
  induction items as [|item items IH]; intros s Hok; cbn [for_of].
  - exists (timelineFiles (this s)). unfold ret.
    now rewrite with_timelineFiles_same.
  - unfold bind.
    destruct (scan_item_cases item s) as [-> | (f & Hres & ->)].
    + apply IH. exact Hok.
    + destruct (IH (with_timelineFiles
                      (JS.map_set (timelineFiles (this s))
                         (TimelineFile.relativePath f) f) s)) as (idx & -> & Hidx).
      * cbn [with_timelineFiles this timelineFiles]. now apply index_ok_set.
      * exists idx. split; [reflexivity | exact Hidx].
Qed.

(** X8.  After a scan that returns, the index has distinct paths, every
    file is stored under the decoded path of its resource, which is not
    empty, the number returned is the size of the index, [scanned] is
    set, and neither the store path nor the disk has changed. *)
Theorem scanTimeline_builds_index (s s' : State World) (n : nat) :
  scanTimeline s = (s', Ok n) ->
  NoDup (map fst (timelineFiles (this s')))
  /\ (forall k f, In (k, f) (timelineFiles (this s')) ->
        k = TimelineFile.relativePath f /\ TimelineFile.originalPath f <> "")
  /\ n = List.length (timelineFiles (this s'))
  /\ scanned (this s') = true
  /\ timelinePath (this s') = timelinePath (this s)
  /\ world s' = world s.
Proof.
  unfold scanTimeline, bind, set_timelineFiles, set_scanned, modify, gets.
  cbn [with_timelineFiles this world timelinePath].
  destruct (fs_readdirSync (world s) (timelinePath (this s))) as [items|e];
    [|discriminate].
  destruct (scan_loop_index_ok items (with_timelineFiles [] s))
    as (idx & Hloop & Hnd & Hall).
  { split; [constructor | intros k f []]. }
  unfold with_timelineFiles, with_scanned in *.
  cbn [this world timelinePath scanned timelineFiles] in *.
  rewrite Hloop. cbn [this world timelinePath timelineFiles scanned].
  intros [= <- <-]. cbn [this world timelinePath timelineFiles scanned].
  repeat split; auto; apply (Hall k f); assumption.
Qed.

(** X9.  An entry of the store that is not a directory, has no manifest,
    has a manifest that cannot be read or parsed, or one without a
    resource, is passed over: the state stays as it is and nothing is
    thrown. *)
Theorem scan_item_skips (item : Dirent.t) (s : State World) :
  Dirent.isDirectory item = false
  \/ fs_existsSync (world s)
       (path_join (path_join (timelinePath (this s)) (Dirent.name item))
          ENTRIES_FILENAME) = false
  \/ (exists e,
        fs_readManifest (world s)
          (path_join (path_join (timelinePath (this s)) (Dirent.name item))
             ENTRIES_FILENAME) = Throw e)
  \/ (exists data,
        fs_readManifest (world s)
          (path_join (path_join (timelinePath (this s)) (Dirent.name item))
             ENTRIES_FILENAME) = Ok data
        /\ (Manifest.resource data = None \/ Manifest.resource data = Some "")) ->
  scan_item item s = (s, Ok tt).
Proof.
  intros Hskip. unfold scan_item.
  destruct (Dirent.isDirectory item) eqn:Hdir; cbn [negb]; [|reflexivity].
  cbv beta iota delta [parseEntriesFile try_catch set_timelineFiles modify
                       ret gets bind].
  destruct (fs_existsSync (world s) _) eqn:Hex; cbn [negb]; [|reflexivity].
  destruct (fs_readManifest (world s) _) as [data|e] eqn:Hread; [|reflexivity].
  destruct (Manifest.resource data) as [[|c r]|] eqn:Hres; try reflexivity.
  exfalso.
  destruct Hskip as [Hd | [Hx | [(e & He) | (data' & Hd' & Hr)]]];
    try discriminate.
  injection Hd' as <-. rewrite Hres in Hr. destruct Hr; discriminate.
Qed.

(** X10.  The index is scanned once: after a [getAllFiles] that returned,
    every later [getAllFiles] returns the same index without looking at
    the disk, whatever has become of it, until [refresh] is called. *)
Theorem getAllFiles_cached (s s1 : State World)
        (idx : list (string * TimelineFile.t)) :
  getAllFiles s = (s1, Ok idx) ->
  idx = timelineFiles (this s1)
  /\ forall w' : World,
       getAllFiles (mkState (this s1) w') = (mkState (this s1) w', Ok idx).
Proof.
  unfold getAllFiles. rewrite bind_apply.
  destruct (ensureScanned s) as [s0 [[]|e]] eqn:Hscan; [|discriminate].
  unfold gets. intros [= <- <-]. split; [reflexivity|].
  intros w'. rewrite bind_apply, ensureScanned_noop; [reflexivity|].
  exact (ensureScanned_ok _ _ _ Hscan).
Qed.

(** *** Looking files up *)

Lemma map_set_fresh {V : Type} (m : list (string * V)) (k : string) (v : V) :
  ~ In k (map fst m) -> JS.map_set m k v = m ++ [(k, v)].
Proof.
  induction m as [|[k' v'] m IH]; cbn [JS.map_set map fst app]; intros Hnotin;
    [reflexivity|].
  destruct (String.eqb_spec k' k) as [->|Hne].
  - exfalso. apply Hnotin. now left.
  - f_equal. apply IH. intros Hin. apply Hnotin. now right.
Qed.

Lemma filter_fold_NoDup (nd dws : string) (l : list (string * TimelineFile.t)) :
  forall acc,
    NoDup (map fst (acc ++ l)) ->
    fold_left (filter_step nd dws) l acc
    = acc ++ filter (fun kv => directory_test nd dws (fst kv)) l.
Proof.
  induction l as [|[k v] l IH]; intros acc Hnd; cbn [fold_left filter fst].
  - now rewrite app_nil_r.
  - unfold filter_step at 2. destruct (directory_test nd dws k).
    + rewrite map_set_fresh.
      * rewrite IH; [now rewrite <- app_assoc|].
        now rewrite <- app_assoc.
      * rewrite map_app in Hnd. apply NoDup_remove_2 in Hnd.
        intros Hin. apply Hnd. apply in_or_app. now left.
    + apply IH. rewrite map_app in *. cbn [map fst] in Hnd.
      now apply NoDup_remove_1 in Hnd.
Qed.

Lemma prefix_refl (a : string) : String.prefix a a = true.
Proof.
  induction a as [|c a IH]; cbn; [reflexivity|].
  destruct (ascii_dec c c); [exact IH | contradiction].
Qed.

(** X11.  On a scanned index with distinct paths [filterByDirectory]
    leaves the state as it is and returns, in the order of the index and
    with their files, the entries that pass the test of its loop; every
    tracked path that is the normalised directory, or starts with it and
    the separator, is among them. *)
Theorem filterByDirectory_on_index (directoryPath : string) (s : State World) :
  scanned (this s) = true ->
  NoDup (map fst (timelineFiles (this s))) ->
  exists matching,
    filterByDirectory directoryPath s = (s, Ok matching)
    /\ matching
       = filter (fun kv =>
                   directory_test (path_resolve directoryPath)
                     (if JS.endsWith (path_resolve directoryPath) path_sep
                      then path_resolve directoryPath
                      else (path_resolve directoryPath ++ path_sep)%string)
                     (fst kv))
                (timelineFiles (this s))
    /\ forall k f,
         In (k, f) (timelineFiles (this s)) ->
         k = path_resolve directoryPath
         \/ JS.startsWith k (path_resolve directoryPath ++ path_sep) = true ->
         In (k, f) matching.
Proof.
  intros Hsc Hnd. eexists. split; [|split; [reflexivity|]].
  - rewrite filterByDirectory_outcome, (ensureScanned_noop s Hsc).
    unfold matching_files. rewrite filter_fold_NoDup by exact Hnd. reflexivity.
  - intros k f Hin Hunder. apply filter_In. split; [exact Hin|].
    cbn [fst]. rewrite directory_test_is_prefix. unfold JS.startsWith in *.
    destruct Hunder as [-> | Hp]; [apply prefix_refl|].
    exact (prefix_app_left _ _ _ Hp).
Qed.

Lemma map_get_In {V : Type} (m : list (string * V)) (k : string) (v : V) :
  JS.map_get m k = Some v -> In (k, v) m.
Proof.
  induction m as [|[k' v'] m IH]; cbn [JS.map_get]; [discriminate|].
  destruct (String.eqb_spec k' k) as [->|Hne].
  - intros [= ->]. now left.
  - intros Hget. right. now apply IH.
Qed.

Lemma map_get_none {V : Type} (m : list (string * V)) (k : string) :
  JS.map_get m k = None -> forall k' v, In (k', v) m -> k' <> k.
Proof.
  induction m as [|[k0 v0] m IH]; cbn [JS.map_get]; intros Hget k' v Hin;
    [destruct Hin|].
  destruct (String.eqb_spec k0 k) as [->|Hne]; [discriminate|].
  destruct Hin as [[= <- <-] | Hin]; [exact Hne | now apply (IH Hget k' v)].
Qed.

(** X12.  [getFile] on a scanned index: a path that is tracked under its
    resolved form gets exactly the file stored there; any file returned is
    a file of the index whose path is the resolved path, ends with it, or
    is an ending of it; and nothing is returned only when no tracked path
    is related to the resolved path in one of these ways. *)
Theorem getFile_spec (filePath : string) (s : State World) :
  scanned (this s) = true ->
  exists r,
    getFile filePath s = (s, Ok r)
    /\ (forall f, JS.map_get (timelineFiles (this s)) (path_resolve filePath)
                  = Some f -> r = Some f)
    /\ (forall f, r = Some f ->
          exists k, In (k, f) (timelineFiles (this s))
                    /\ (k = path_resolve filePath
                        \/ JS.endsWith k (path_resolve filePath) = true
                        \/ JS.endsWith (path_resolve filePath) k = true))
    /\ (r = None ->
          forall k f, In (k, f) (timelineFiles (this s)) ->
            k <> path_resolve filePath
            /\ JS.endsWith k (path_resolve filePath) = false
            /\ JS.endsWith (path_resolve filePath) k = false).
Proof.
  intros Hsc. unfold getFile. rewrite bind_apply, (ensureScanned_noop s Hsc).
  cbv beta iota zeta. rewrite bind_apply. unfold gets at 1. cbv beta iota.
  set (np := path_resolve filePath). set (idx := timelineFiles (this s)).
  unfold JS.map_has.
  destruct (JS.map_get idx np) as [f0|] eqn:Hget.
  - exists (Some f0). unfold ret. split; [reflexivity|]. split; [now intros f [= ->]|].
    split; [|discriminate].
    intros f [= <-]. exists np. split; [now apply map_get_In | now left].
  - destruct (find (partial_match np) idx) as [[k0 f0]|] eqn:Hfind.
    + exists (Some f0). unfold ret. split; [reflexivity|].
      split; [discriminate|]. split; [|discriminate].
      intros f [= <-]. exists k0. apply find_some in Hfind.
      destruct Hfind as [Hin Hpm]. split; [exact Hin|].
      unfold partial_match in Hpm. cbn [fst] in Hpm.
      apply orb_prop in Hpm. right. exact Hpm.
    + exists None. unfold ret. split; [reflexivity|].
      split; [discriminate|]. split; [discriminate|].
      intros _ k f Hin. split; [exact (map_get_none _ _ Hget k f Hin)|].
      pose proof (find_none _ _ Hfind (k, f) Hin) as Hpm.
      unfold partial_match in Hpm. cbn [fst] in Hpm.
      now apply orb_false_iff in Hpm.
Qed.

(** *** Statistics *)

Lemma latestEntry_max (f : TimelineFile.t) :
  match TimelineFile.latestEntry f with
  | Some e => In e (TimelineFile.entries f)
              /\ forall e', In e' (TimelineFile.entries f) -> ts e' <= ts e
  | None => TimelineFile.entries f = []
  end.
Proof.
  unfold TimelineFile.latestEntry.
  destruct (TimelineFile.entries f) as [|first rest]; [reflexivity|].
  cbn [TimelineFile.reduce_guarded].
  destruct (fold_newer_position rest first) as (l1 & l2 & -> & Hb & Ha).
  split; [apply in_or_app; right; now left|].
  intros e' Hin. apply in_app_or in Hin.
  destruct Hin as [Hin | [<- | Hin]]; [specialize (Hb e' Hin); lia | lia | auto].
Qed.

Lemma oldestEntry_min (f : TimelineFile.t) :
  match TimelineFile.oldestEntry f with
  | Some e => In e (TimelineFile.entries f)
              /\ forall e', In e' (TimelineFile.entries f) -> ts e <= ts e'
  | None => TimelineFile.entries f = []
  end.
Proof.
  unfold TimelineFile.oldestEntry.
  destruct (TimelineFile.entries f) as [|first rest]; [reflexivity|].
  cbn [TimelineFile.reduce_guarded].
  destruct (fold_older_position rest first) as (l1 & l2 & -> & Hb & Ha).
  split; [apply in_or_app; right; now left|].
  intros e' Hin. apply in_app_or in Hin.
  destruct Hin as [Hin | [<- | Hin]]; [specialize (Hb e' Hin); lia | lia | auto].
Qed.

Lemma in_snoc {A : Type} (x y : A) (l : list A) :
  In x (l ++ [y]) -> In x l \/ x = y.
Proof.
  intros Hin. apply in_app_or in Hin.
  destruct Hin as [Hin | [<- | []]]; [now left | now right].
Qed.

Lemma tally_step_ok (done : list (string * TimelineFile.t)) (acc : Tally)
      (k : string) (f : TimelineFile.t) :
  tally_ok done acc -> tally_ok (done ++ [(k, f)]) (tally_step acc (k, f)).
Proof.
  intros (Hv & Hn & Ho). unfold tally_ok, tally_step.
  cbn [tally_versions tally_newest tally_oldest].
  split; [|split].
  - rewrite map_app, list_sum_app, Hv. cbn [map snd]. unfold list_sum at 3.
    cbn [fold_right]. lia.
  - pose proof (latestEntry_max f) as Hmax.
    destruct (TimelineFile.latestEntry f) as [e|].
    + destruct Hmax as [Hin Hmax].
      destruct (tally_newest acc) as [[p t0]|].
      * destruct Hn as [(f0 & e0 & Hin0 & He0 & Ht0) Hbound].
        destruct (Z.gtb_spec (ts e) t0) as [Hgt|Hle].
        -- split; [exists f, e; repeat split; auto; apply in_or_app; right; now left|].
           intros p' f' e' Hin' He'.
           destruct (in_snoc _ _ _ Hin') as [Hd | [= -> ->]];
             [specialize (Hbound p' f' e' Hd He'); lia | now apply Hmax].
        -- split; [exists f0, e0; repeat split; auto; apply in_or_app; now left|].
           intros p' f' e' Hin' He'.
           destruct (in_snoc _ _ _ Hin') as [Hd | [= -> ->]];
             [now apply (Hbound p' f') | specialize (Hmax e' He'); lia].
      * split; [exists f, e; repeat split; auto; apply in_or_app; right; now left|].
        intros p' f' e' Hin' He'.
        destruct (in_snoc _ _ _ Hin') as [Hd | [= -> ->]];
          [rewrite (Hn p' f' Hd) in He'; destruct He' | now apply Hmax].
    + destruct (tally_newest acc) as [[p t0]|].
      * destruct Hn as [(f0 & e0 & Hin0 & He0 & Ht0) Hbound].
        split; [exists f0, e0; repeat split; auto; apply in_or_app; now left|].
        intros p' f' e' Hin' He'.
        destruct (in_snoc _ _ _ Hin') as [Hd | [= -> ->]];
          [now apply (Hbound p' f') | rewrite Hmax in He'; destruct He'].
      * intros p' f' Hin'.
        destruct (in_snoc _ _ _ Hin') as [Hd | [= -> ->]];
          [now apply (Hn p') | exact Hmax].
  - pose proof (oldestEntry_min f) as Hmin.
    destruct (TimelineFile.oldestEntry f) as [e|].
    + destruct Hmin as [Hin Hmin].
      destruct (tally_oldest acc) as [[p t0]|].
      * destruct Ho as [(f0 & e0 & Hin0 & He0 & Ht0) Hbound].
        destruct (Z.ltb_spec (ts e) t0) as [Hlt|Hge].
        -- split; [exists f, e; repeat split; auto; apply in_or_app; right; now left|].
           intros p' f' e' Hin' He'.
           destruct (in_snoc _ _ _ Hin') as [Hd | [= -> ->]];
             [specialize (Hbound p' f' e' Hd He'); lia | now apply Hmin].
        -- split; [exists f0, e0; repeat split; auto; apply in_or_app; now left|].
           intros p' f' e' Hin' He'.
           destruct (in_snoc _ _ _ Hin') as [Hd | [= -> ->]];
             [now apply (Hbound p' f') | specialize (Hmin e' He'); lia].
      * split; [exists f, e; repeat split; auto; apply in_or_app; right; now left|].
        intros p' f' e' Hin' He'.
        destruct (in_snoc _ _ _ Hin') as [Hd | [= -> ->]];
          [rewrite (Ho p' f' Hd) in He'; destruct He' | now apply Hmin].
    + destruct (tally_oldest acc) as [[p t0]|].
      * destruct Ho as [(f0 & e0 & Hin0 & He0 & Ht0) Hbound].
        split; [exists f0, e0; repeat split; auto; apply in_or_app; now left|].
        intros p' f' e' Hin' He'.
        destruct (in_snoc _ _ _ Hin') as [Hd | [= -> ->]];
          [now apply (Hbound p' f') | rewrite Hmin in He'; destruct He'].
      * intros p' f' Hin'.
        destruct (in_snoc _ _ _ Hin') as [Hd | [= -> ->]];
          [now apply (Ho p') | exact Hmin].
Qed.

Lemma tally_fold_ok (l : list (string * TimelineFile.t)) :
  forall done acc,
    tally_ok done acc -> tally_ok (done ++ l) (fold_left tally_step l acc).
Proof.
  induction l as [|[k f] l IH]; intros done acc Hok; cbn [fold_left].
  - now rewrite app_nil_r.
  - replace (done ++ (k, f) :: l) with ((done ++ [(k, f)]) ++ l)
      by (now rewrite <- app_assoc).
    apply IH. now apply tally_step_ok.
Qed.

(** X13.  [getStatistics] on a scanned index leaves the state as it is
    and reports the number of tracked files, the sum of their version
    counts, and as newest (oldest) entry the path and timestamp of an
    entry of the index that no entry of any file is newer (older) than;
    an extreme is [null] exactly when no tracked file has an entry. *)
Theorem getStatistics_spec (s : State World) :
  scanned (this s) = true ->
  exists st,
    getStatistics s = (s, Ok st)
    /\ Statistics.timelinePath st = timelinePath (this s)
    /\ Statistics.totalFiles st = List.length (timelineFiles (this s))
    /\ tally_ok (timelineFiles (this s))
         (mkTally (Statistics.totalVersions st) (Statistics.oldestEntry st)
            (Statistics.newestEntry st)).
Proof.
  intros Hsc. unfold getStatistics.
  rewrite bind_apply, (ensureScanned_noop s Hsc). cbv beta iota.
  eexists. split; [reflexivity|]. cbn [Statistics.timelinePath
    Statistics.totalFiles Statistics.totalVersions Statistics.oldestEntry
    Statistics.newestEntry].
  split; [reflexivity|]. split; [reflexivity|].
  pose proof (tally_fold_ok (timelineFiles (this s)) [] (mkTally 0 None None)) as Hok.
  cbn [app] in Hok.
  destruct (fold_left tally_step (timelineFiles (this s)) (mkTally 0 None None))
    as [v o n] eqn:Hfold.
  cbn [tally_versions tally_oldest tally_newest]. apply Hok.
  split; [reflexivity|]. split; intros p' f' [].
Qed.

(** *** One file of a reconstruction *)

(** [processFileForReconstruction], branch by branch. *)
Lemma processFile_eq (p : string) (f : TimelineFile.t) (src out : string)
      (at_ : option Z) (meta : bool) (w : World) :
  processFileForReconstruction p f src out at_ meta w
  = match resolve_version f at_ with
    | None => (w, Ok Skipped)
    | Some e =>
        match calculateRelativePath p src with
        | None => (w, Ok Skipped)
        | Some EmptyString => (w, Ok Skipped)
        | Some rel =>
            if fs_existsSync w (TimelineFile.getFileContentPath f e) then
              match Utils.copyFile (TimelineFile.getFileContentPath f e)
                      (path_join out rel) w with
              | (w1, Throw err) => (w1, Ok (Errored p err))
              | (w1, Ok _) =>
                  if meta then
                    match TimelineFile.toMetadataDict f e w1 with
                    | (w2, Ok md) =>
                        (w2, Ok (Processed rel
                                   (Some (FileMetadata.set_relativePath md rel))))
                    | (w2, Throw err) => (w2, Ok (Errored p err))
                    end
                  else (w1, Ok (Processed rel None))
              end
            else (w, Ok (Errored p ("Source file not found: "
                                    ++ TimelineFile.getFileContentPath f e)%string))
        end
    end.
Proof.
  unfold processFileForReconstruction, try_catch, process_file_body.
  destruct (resolve_version f at_) as [e|]; [|reflexivity].
  destruct (calculateRelativePath p src) as [[|c r]|]; try reflexivity.
  rewrite bind_apply. unfold gets at 1. cbv beta iota.
  destruct (fs_existsSync w (TimelineFile.getFileContentPath f e));
    cbn [negb]; [|reflexivity].
  rewrite bind_apply.
  destruct (Utils.copyFile _ _ w) as [w1 [[]|err]]; [|reflexivity].
  destruct meta; [|reflexivity].
  rewrite bind_apply.
  destruct (TimelineFile.toMetadataDict f e w1) as [w2 [md|err]]; reflexivity.
Qed.

(** Building the metadata of an entry reads the disk and leaves it as it
    is; the record names the entry. *)
Lemma toMetadataDict_reads (f : TimelineFile.t) (e : FileEntry.t) (w : World) :
  exists r,
    TimelineFile.toMetadataDict f e w = (w, r)
    /\ forall md, r = Ok md ->
         FileMetadata.entryId md = FileEntry.id e
         /\ FileMetadata.timestamp md = ts e
         /\ FileMetadata.originalPath md = TimelineFile.relativePath f
         /\ FileMetadata.source md = FileEntry.source e
         /\ FileMetadata.sourceDescription md = FileEntry.sourceDescription e.
Proof.
  unfold TimelineFile.toMetadataDict, Utils.computeFileHash.
  cbv beta iota zeta delta [bind gets ret lift_res].
  destruct (Utils.formatTimestamp (ts e)) as [datetime|err].
  - destruct (fs_existsSync w _); cbn [negb].
    + destruct (fs_hashFile w _ _) as [digest|err].
      * eexists. split; [reflexivity|]. intros md [= <-]. repeat split.
      * eexists. split; [reflexivity|]. discriminate.
    + eexists. split; [reflexivity|]. intros md [= <-]. repeat split.
  - eexists. split; [reflexivity|]. discriminate.
Qed.

(** X14.  A file is skipped exactly when it has no version to take (none
    at the instant, or none at all) or no usable path below the source
    directory (none, or the empty one); a skipped file leaves the disk as
    it was. *)
Theorem processFile_skipped_iff (p : string) (f : TimelineFile.t)
        (src out : string) (at_ : option Z) (meta : bool) (w w' : World) :
  processFileForReconstruction p f src out at_ meta w = (w', Ok Skipped)
  <-> w' = w
      /\ (resolve_version f at_ = None
          \/ calculateRelativePath p src = None
          \/ calculateRelativePath p src = Some "").
Proof.
  rewrite processFile_eq.
  destruct (resolve_version f at_) as [e|].
  - destruct (calculateRelativePath p src) as [[|c r]|].
    + split; [intros [= <-]; split; auto | intros [-> _]; reflexivity].
    + split.
      * destruct (fs_existsSync w _); [|discriminate].
        destruct (Utils.copyFile _ _ w) as [w1 [[]|err]]; [|discriminate].
        destruct meta; [|discriminate].
        destruct (TimelineFile.toMetadataDict f e w1) as [w2 [md|err]];
          discriminate.
      * intros [_ [Hn | [Hn | Hn]]]; discriminate.
    + split; [intros [= <-]; split; auto | intros [-> _]; reflexivity].
  - split; [intros [= <-]; split; auto | intros [-> _]; reflexivity].
Qed.

(** X15.  A file reported as processed had a version resolved, a usable
    relative path and its blob on disk, and the copy of that blob to the
    destination succeeded, leaving the disk the call returns; the
    metadata, present exactly when asked for, names that version, the
    relative path and the decoded path of the file. *)
Theorem processFile_processed (p : string) (f : TimelineFile.t)
        (src out : string) (at_ : option Z) (meta : bool) (w w' : World)
        (rel : string) (m : option FileMetadata.t) :
  processFileForReconstruction p f src out at_ meta w
  = (w', Ok (Processed rel m)) ->
  exists e,
    resolve_version f at_ = Some e
    /\ calculateRelativePath p src = Some rel
    /\ rel <> ""
    /\ fs_existsSync w (TimelineFile.getFileContentPath f e) = true
    /\ Utils.copyFile (TimelineFile.getFileContentPath f e) (path_join out rel) w
       = (w', Ok tt)
    /\ match m with
       | Some md =>
           meta = true
           /\ FileMetadata.relativePath md = rel
           /\ FileMetadata.entryId md = FileEntry.id e
           /\ FileMetadata.timestamp md = ts e
           /\ FileMetadata.originalPath md = TimelineFile.relativePath f
       | None => meta = false
       end.
Proof.
  rewrite processFile_eq.
  destruct (resolve_version f at_) as [e|]; [|discriminate].
  destruct (calculateRelativePath p src) as [[|c r]|]; try discriminate.
  destruct (fs_existsSync w _) eqn:Hex; [|discriminate].
  destruct (Utils.copyFile _ _ w) as [w1 [[]|err]] eqn:Hcopy; [|discriminate].
  destruct meta.
  - destruct (toMetadataDict_reads f e w1) as (r0 & Hmd & Hfields).
    rewrite Hmd. destruct r0 as [md|err]; [|discriminate].
    intros [= <- <- <-]. exists e.
    destruct (Hfields md eq_refl) as (Hi & Ht & Ho & _).
    repeat split; try assumption; try reflexivity; discriminate.
  - intros [= <- <- <-]. exists e.
    repeat split; try assumption; try reflexivity; discriminate.
Qed.

(** The number of files the loop has put aside, one way or another. *)
Lemma collect_counts (acc : Acc) (p : string) (o : FileOutcome) :
  (List.length (processedFiles (collect acc p o))
   + List.length (skippedFiles (collect acc p o))
   + List.length (errors (collect acc p o)))%nat
  = S (List.length (processedFiles acc) + List.length (skippedFiles acc)
       + List.length (errors acc))%nat.
Proof.
  destruct o as [rel m| |file err]; unfold collect;
    cbn [processedFiles skippedFiles errors]; rewrite length_app;
    cbn [List.length]; lia.
Qed.

(** The accounts of the loop, from any accumulator. *)
Lemma reconstruct_loop_tally (src out : string) (at_ : option Z) (meta : bool) :
  forall l a w w' acc,
  reconstruct_loop l src out at_ meta a w = (w', Ok acc) ->
  (List.length (processedFiles acc) + List.length (skippedFiles acc)
   + List.length (errors acc))%nat
  = (List.length (processedFiles a) + List.length (skippedFiles a)
     + List.length (errors a) + List.length l)%nat
  /\ (forall x, In x (skippedFiles acc) ->
        In x (skippedFiles a) \/ In x (map fst l))
  /\ (forall x, In x (map fst (errors acc)) ->
        In x (map fst (errors a)) \/ In x (map fst l))
  /\ (List.length (metadataEntries a)
      = (if meta then List.length (processedFiles a) else 0%nat) ->
      List.length (metadataEntries acc)
      = (if meta then List.length (processedFiles acc) else 0%nat)).
Proof.
  unfold reconstruct_loop.
  induction l as [|[p f] l IH]; intros a w w' acc; cbn [for_of].
  - unfold ret. intros [= <- <-]. repeat split; auto; cbn [List.length]; lia.
  - rewrite bind_apply, bind_apply.
    destruct (processFileForReconstruction p f src out at_ meta w)
      as [w1 [o|err]] eqn:Hfile; [|discriminate].
    unfold ret at 1. intros Hrest.
    destruct (IH _ _ _ _ Hrest) as (Hc & Hs & He & Hm).
    rewrite collect_counts in Hc. cbn [List.length map fst].
    split; [lia|].
    assert (Hshape : match o with
                     | Errored file _ => file = p
                     | Processed _ m =>
                         if meta then m <> None else m = None
                     | Skipped => True
                     end).
    { rewrite processFile_eq in Hfile.
      destruct (resolve_version f at_) as [e|]; [|now injection Hfile as _ <-].
      destruct (calculateRelativePath p src) as [[|c r]|];
        try (now injection Hfile as _ <-).
      destruct (fs_existsSync w _); [|now injection Hfile as _ <-].
      destruct (Utils.copyFile _ _ w) as [w2 [[]|err]];
        [|now injection Hfile as _ <-].
      destruct meta; [|now injection Hfile as _ <-].
      destruct (TimelineFile.toMetadataDict f e w2) as [w3 [md|err]];
        injection Hfile as _ <-; [discriminate | reflexivity]. }
    split; [|split].
    + intros x Hx. destruct (Hs x Hx) as [Ha | Hl]; [|right; now right].
      destruct o as [rel m| |file err]; cbn [collect skippedFiles] in Ha;
        try (now left).
      apply in_app_or in Ha. destruct Ha as [Ha | [<- | []]];
        [now left | right; now left].
    + intros x Hx. destruct (He x Hx) as [Ha | Hl]; [|right; now right].
      destruct o as [rel m| |file err]; cbn [collect errors] in Ha;
        try (now left).
      rewrite map_app in Ha. apply in_app_or in Ha.
      destruct Ha as [Ha | [<- | []]]; [now left|].
      right. left. cbn [fst]. now symmetry.
    + intros Ha. apply Hm.
      destruct o as [rel [md|]| |file err];
        cbn [collect metadataEntries processedFiles]; try exact Ha;
        destruct meta; try contradiction; try discriminate;
        rewrite ?length_app; cbn [List.length]; try lia; try reflexivity.
Qed.

(** X16.  The loop of a reconstruction accounts for every matching file
    exactly once: the files processed, skipped and in error add up to the
    files matched; every skip and every error names a matching path; and
    there is one metadata record per processed file when metadata is
    asked for, none otherwise. *)
Theorem reconstruct_loop_accounts (l : list (string * TimelineFile.t))
        (src out : string) (at_ : option Z) (meta : bool) (w w' : World)
        (acc : Acc) :
  reconstruct_loop l src out at_ meta empty_acc w = (w', Ok acc) ->
  (List.length (processedFiles acc) + List.length (skippedFiles acc)
   + List.length (errors acc))%nat = List.length l
  /\ (forall x, In x (skippedFiles acc) -> In x (map fst l))
  /\ (forall x, In x (map fst (errors acc)) -> In x (map fst l))
  /\ List.length (metadataEntries acc)
     = (if meta then List.length (processedFiles acc) else 0%nat).
Proof.
  intros Hrun. destruct (reconstruct_loop_tally _ _ _ _ _ _ _ _ _ Hrun) as (Hc & Hs & He & Hm).
  cbn [empty_acc processedFiles skippedFiles errors metadataEntries
       List.length map] in *.
  split; [lia|]. split; [|split].
  - intros x Hx. destruct (Hs x Hx) as [[] | Hl]. exact Hl.
  - intros x Hx. destruct (He x Hx) as [[] | Hl]. exact Hl.
  - apply Hm. now destruct meta.
Qed.

(** The skip count of a result about at least one matching file. *)
Lemma reconstruct_matching_skips (src out : string) (meta : bool)
      (at_ : option Z) (x : string * TimelineFile.t)
      (l : list (string * TimelineFile.t)) (s0 s' : State World)
      (r : ReconstructionResult.t) :
  reconstruct_matching src out meta at_ (x :: l) s0 = (s', Ok r) ->
  exists w1 w2 acc,
    reconstruct_loop (x :: l) (path_resolve src) out at_ meta empty_acc w1
    = (w2, Ok acc)
    /\ ReconstructionResult.files r = processedFiles acc
    /\ ReconstructionResult.filesProcessed r = List.length (processedFiles acc)
    /\ ReconstructionResult.errors r = errors acc
    /\ ReconstructionResult.skippedFiles r
       = match at_ with
         | Some _ => Some (List.length (skippedFiles acc))
         | None => None
         end.
Proof.
  unfold reconstruct_matching. cbn [JS.map_size List.length Nat.eqb].
  rewrite bind_apply. unfold on_world at 1.
  destruct (Utils.ensureDirectoryExists out (world s0)) as [w1 [[]|e]];
    [|discriminate].
  cbv zeta. rewrite bind_apply. unfold on_world at 1. cbn [world this].
  destruct (reconstruct_loop_total (x :: l) (path_resolve src) out at_ meta
              empty_acc w1) as (w2 & acc & Hloop).
  rewrite Hloop. rewrite bind_apply.
  match goal with |- context [?m {| this := ?t; world := w2 |}] =>
    destruct (m {| this := t; world := w2 |}) as [s3 [[]|e]] end;
    [|discriminate].
  destruct at_ as [t0|].
  - rewrite bind_apply. unfold lift_res.
    destruct (Utils.formatTimestamp t0) as [iso|e]; [|discriminate].
    unfold ret. intros [= <- <-]. exists w1, w2, acc.
    repeat split; try reflexivity; exact Hloop.
  - unfold ret. intros [= <- <-]. exists w1, w2, acc.
    repeat split; try reflexivity; exact Hloop.
Qed.

(** X20.  The counts of a reconstruction result add up: [filesProcessed]
    is the number of paths in [files]; processed files and errors never
    exceed the matching files; and for a reconstruction at an instant
    that matched something, [skippedFiles] is present and processed,
    skipped and failed files together are exactly the matching files.
    Without an instant, or without a match, no skip count is reported. *)
Theorem reconstructDirectory_accounts (src out : string) (meta : bool)
        (at_ : option Z) (s s0 s' : State World)
        (matching : list (string * TimelineFile.t))
        (r : ReconstructionResult.t) :
  filterByDirectory src s = (s0, Ok matching) ->
  reconstructDirectory src out meta at_ s = (s', Ok r) ->
  ReconstructionResult.filesProcessed r
  = List.length (ReconstructionResult.files r)
  /\ (ReconstructionResult.filesProcessed r
      + List.length (ReconstructionResult.errors r) <= List.length matching)%nat
  /\ match at_, matching with
     | Some _, _ :: _ =>
         exists k,
           ReconstructionResult.skippedFiles r = Some k
           /\ (ReconstructionResult.filesProcessed r + k
               + List.length (ReconstructionResult.errors r))%nat
              = List.length matching
     | _, _ => ReconstructionResult.skippedFiles r = None
     end.
Proof.
  intros Hfilter. rewrite reconstructDirectory_unfold, bind_apply, Hfilter.
  destruct matching as [|x l].
  - rewrite reconstruct_matching_none. intros [= _ <-].
    cbn. repeat split; auto. now destruct at_.
  - intros Hrun.
    destruct (reconstruct_matching_skips _ _ _ _ _ _ _ _ _ Hrun)
      as (w1 & w2 & acc & Hloop & Hf & Hn & He & Hk).
    destruct (reconstruct_loop_tally _ _ _ _ _ _ _ _ _ Hloop) as (Hc & _).
    cbn [empty_acc processedFiles skippedFiles errors List.length] in Hc.
    rewrite Hn, Hf, He, Hk. cbn [List.length].
    split; [reflexivity|]. split; [lia|].
    destruct at_ as [t0|]; [|reflexivity].
    eexists. split; [reflexivity | lia].
Qed.

(** *** The constructor *)

Lemma first_existing_exists (w : World) (defaults : list string) (p : string) :
  first_existing w defaults = Some p -> fs_existsSync w p = true.
Proof.
  induction defaults as [|d rest IH]; cbn [first_existing]; [discriminate|].
  destruct (fs_existsSync w (Utils.expandUserPath (Utils.expandEnvVars d)))
    eqn:Hex; [|exact IH].
  intros [= <-]. exact Hex.
Qed.

(** X17.  A constructor that returns has found its timeline directory on
    disk: the path of the new extractor exists, its index is empty and
    not yet scanned, and the disk is as it was.  A custom or configured
    path that does not exist makes it throw; it never falls back to the
    default locations. *)
Theorem construct_path_exists (customPath configPath : option string)
        (w w' : World) :
  (forall ex, construct customPath configPath w = (w', Ok ex) ->
     w' = w
     /\ fs_existsSync w (timelinePath ex) = true
     /\ timelineFiles ex = []
     /\ scanned ex = false)
  /\ (forall p,
        truthy (match truthy customPath with
                | Some c => Some c
                | None => configPath
                end) = Some p ->
        fs_existsSync w (Utils.expandUserPath (Utils.expandEnvVars p)) = false ->
        construct customPath configPath w
        = (w, Throw ("Error: Timeline directory not found: "
                     ++ Utils.expandUserPath (Utils.expandEnvVars p))%string)).
Proof.
  unfold construct. split.
  - intros ex. rewrite bind_apply. unfold resolveTimelinePath.
    destruct (truthy _) as [p|].
    + destruct (fs_existsSync w _) eqn:Hex; [|discriminate].
      unfold ret. intros [= <- <-]. repeat split; auto.
    + destruct (_ || _); [|discriminate].
      destruct (first_existing w _) as [p|] eqn:Hfirst; [|discriminate].
      unfold ret. intros [= <- <-]. repeat split; auto.
      exact (first_existing_exists _ _ _ Hfirst).
  - intros p Hp Hmissing. rewrite bind_apply. unfold resolveTimelinePath.
    rewrite Hp, Hmissing. reflexivity.
Qed.

(** A scan in terms of its loop. *)
Lemma scanTimeline_eq (s : State World) :
  scanTimeline s
  = match fs_readdirSync (world s) (timelinePath (this s)) with
    | Throw e => (with_timelineFiles [] s, Throw e)
    | Ok items =>
        (with_scanned true
           (fst (for_of (fun _ item => scan_item item) items tt
                   (with_timelineFiles [] s))),
         Ok (List.length
               (timelineFiles
                  (this (fst (for_of (fun _ item => scan_item item) items tt
                                (with_timelineFiles [] s)))))))
    end.
Proof.
  unfold scanTimeline, bind, set_timelineFiles, set_scanned, modify, gets.
  cbn [with_timelineFiles this world timelinePath].
  destruct (fs_readdirSync (world s) (timelinePath (this s))) as [items|e];
    [|reflexivity].
  destruct (scan_loop_frame items (with_timelineFiles [] s)) as [idx Hloop].
  unfold with_timelineFiles, with_scanned in *.
  cbn [this world timelinePath scanned timelineFiles] in *.
  rewrite Hloop. reflexivity.
Qed.

(** A scan that returns has set [scanned] and touched neither the store
    path nor the disk. *)
Lemma scanTimeline_frame (s s1 : State World) (n : nat) :
  scanTimeline s = (s1, Ok n) ->
  scanned (this s1) = true
  /\ timelinePath (this s1) = timelinePath (this s)
  /\ world s1 = world s.
Proof.
  rewrite scanTimeline_eq.
  destruct (fs_readdirSync (world s) (timelinePath (this s))) as [items|e];
    [|discriminate].
  destruct (scan_loop_frame items (with_timelineFiles [] s)) as [idx ->].
  cbn [fst]. intros [= <- _]. repeat split.
Qed.

(** X18.  A rescan of a store that has not changed reproduces the state:
    after a scan that returned, a second scan returns the same number
    and leaves the same index. *)
Theorem scanTimeline_idempotent (s s1 : State World) (n : nat) :
  scanTimeline s = (s1, Ok n) -> scanTimeline s1 = (s1, Ok n).
Proof.
  intros Hrun.
  destruct (scanTimeline_frame _ _ _ Hrun) as (Hsc & Hpath & Hw).
  assert (Hs1 : with_timelineFiles [] s1 = with_scanned true (with_timelineFiles [] s)).
  { destruct s1 as [[p1 m1 b1] w1]. cbn in Hsc, Hpath, Hw. subst.
    reflexivity. }
  rewrite scanTimeline_eq in Hrun |- *.
  rewrite Hw, Hpath, Hs1.
  destruct (fs_readdirSync (world s) (timelinePath (this s))) as [items|e];
    [|discriminate].
  rewrite scan_loop_with_scanned. cbn [fst snd].
  injection Hrun as <- <-. reflexivity.
Qed.

End MoreExtractor.

(* ================================================================== *)
(** ** Expansion of environment variables *)

Section Expansion.

Context `{OsApi} `{PathApi}.

Lemma append_empty_r (s : string) : (s ++ "")%string = s.
Proof. induction s as [|c s IH]; cbn; [reflexivity | now rewrite IH]. Qed.

Lemma str_snoc (l : list ascii) (c : ascii) (k : string) :
  (string_of_list_ascii (l ++ [c]) ++ k)%string
  = (string_of_list_ascii l ++ String c k)%string.
Proof. induction l as [|a l IH]; cbn; [reflexivity | now rewrite IH]. Qed.

Lemma expand_scan_plain (a r : string) :
  Utils.no_percent a = true ->
  Utils.expand_scan (a ++ r) None = (a ++ Utils.expand_scan r None)%string.
Proof.
  unfold Utils.no_percent. induction a as [|c a IH]; cbn [Number.forall_chars String.append];
    [reflexivity|].
  intros Hc. apply andb_prop in Hc. destruct Hc as [Hc Ha].
  cbn [Utils.expand_scan]. destruct (Ascii.eqb c "%"); [discriminate Hc|].
  now rewrite IH.
Qed.

Lemma expand_scan_key (key b : string) :
  forall acc,
    Utils.no_percent key = true ->
    acc <> [] \/ key <> "" ->
    Utils.expand_scan (key ++ String "%" b) (Some acc)
    = (Utils.env_value (string_of_list_ascii (rev acc) ++ key)
       ++ Utils.expand_scan b None)%string.
Proof.
  unfold Utils.no_percent.
  induction key as [|c key IH]; intros acc Hk Hne;
    cbn [Number.forall_chars String.append Utils.expand_scan] in *.
  - rewrite append_empty_r. cbn [Ascii.eqb Bool.eqb]. 
    destruct acc as [|a acc]; [destruct Hne; contradiction | reflexivity].
  - apply andb_prop in Hk. destruct Hk as [Hc Hk].
    destruct (Ascii.eqb c "%"); [discriminate Hc|].
    rewrite IH; [|exact Hk | left; discriminate].
    cbn [rev]. now rewrite str_snoc.
Qed.

(** X19.  [expandEnvVars] replaces a variable between two percent signs
    by its value in the environment, or by nothing when it has none, and
    goes on after it: text without a percent sign before the variable is
    kept as it is. *)
Theorem expandEnvVars_variable (a key b : string) :
  Utils.no_percent a = true ->
  Utils.no_percent key = true ->
  key <> "" ->
  Utils.expandEnvVars (a ++ "%" ++ key ++ "%" ++ b)
  = (a ++ Utils.env_value key ++ Utils.expandEnvVars b)%string
  /\ Utils.expandEnvVars a = a.
Proof.
  intros Ha Hk Hne. unfold Utils.expandEnvVars. split.
  - rewrite expand_scan_plain by exact Ha. f_equal.
    cbn [String.append Utils.expand_scan Ascii.eqb Bool.eqb].
    rewrite expand_scan_key; [reflexivity | exact Hk | now right].
  - rewrite <- (append_empty_r a) at 1.
    rewrite expand_scan_plain by exact Ha. cbn [Utils.expand_scan].
    apply append_empty_r.
Qed.

End Expansion.

(* ================================================================== *)
(** ** The further properties on the example host *)

Section MoreScenarios.

Local Existing Instances Fixture.path Fixture.fs Fixture.url Fixture.date Fixture.os.

Import Extractor.

(** X8, witnessed on the example store. *)
Lemma scanTimeline_builds_index_witness :
  exists s' n,
    scanTimeline Fixture.store_state = (s', Ok n)
    /\ NoDup (map fst (timelineFiles (this s')))
    /\ n = List.length (timelineFiles (this s'))
    /\ scanned (this s') = true.
Proof.
  destruct (scanTimeline Fixture.store_state) as [s' [n|e]] eqn:Hrun;
    [|vm_compute in Hrun; discriminate Hrun].
  exists s', n. split; [reflexivity|].
  destruct (scanTimeline_builds_index _ _ _ Hrun) as (Hnd & _ & Hn & Hsc & _).
  auto.
Defined.

(** X9, witnessed on the plain file of the example store. *)
Lemma scan_item_skips_witness :
  Dirent.isDirectory (Dirent.mk "notes.txt" false) = false
  /\ scan_item (Dirent.mk "notes.txt" false) Fixture.store_state
     = (Fixture.store_state, Ok tt).
Proof.
  split; [reflexivity|].
  exact (scan_item_skips (Dirent.mk "notes.txt" false) Fixture.store_state
           (or_introl eq_refl)).
Defined.

(** X10, witnessed: the index of the example store, served again from a
    machine whose disk is another. *)
Lemma getAllFiles_cached_witness :
  exists s1 idx,
    getAllFiles Fixture.store_state = (s1, Ok idx)
    /\ getAllFiles (mkState (this s1) Fixture.disk3)
       = (mkState (this s1) Fixture.disk3, Ok idx).
Proof.
  destruct (getAllFiles Fixture.store_state) as [s1 [idx|e]] eqn:Hrun;
    [|vm_compute in Hrun; discriminate Hrun].
  exists s1, idx. split; [reflexivity|].
  exact (proj2 (getAllFiles_cached _ _ _ Hrun) Fixture.disk3).
Defined.

Lemma index3_NoDup : NoDup (map fst (timelineFiles (this Fixture.state3))).
Proof.
  cbn. repeat constructor; cbn; intuition discriminate.
Qed.

(** X11, witnessed on the three files. *)
Lemma filterByDirectory_on_index_witness :
  scanned (this Fixture.state3) = true
  /\ NoDup (map fst (timelineFiles (this Fixture.state3)))
  /\ exists matching,
       filterByDirectory "/work/proj" Fixture.state3 = (Fixture.state3, Ok matching)
       /\ In (Fixture.tracked "b.txt" "b1" 200) matching.
Proof.
  split; [reflexivity|]. split; [exact index3_NoDup|].
  destruct (filterByDirectory_on_index "/work/proj" Fixture.state3 eq_refl
              index3_NoDup) as (matching & Hrun & _ & Hunder).
  exists matching. split; [exact Hrun|].
  apply Hunder; [cbn; tauto | right; reflexivity].
Defined.

(** X12, witnessed on the three files. *)
Lemma getFile_spec_witness :
  scanned (this Fixture.state3) = true
  /\ exists r,
       getFile "/work/proj/../proj/c.txt" Fixture.state3 = (Fixture.state3, Ok r)
       /\ r = Some (snd (Fixture.tracked "c.txt" "c1" 300)).
Proof.
  split; [reflexivity|].
  destruct (getFile_spec "/work/proj/../proj/c.txt" Fixture.state3 eq_refl)
    as (r & Hrun & Hexact & _).
  exists r. split; [exact Hrun|]. apply Hexact. reflexivity.
Defined.

(** X13, witnessed on the three files. *)
Lemma getStatistics_spec_witness :
  scanned (this Fixture.state3) = true
  /\ exists st,
       getStatistics Fixture.state3 = (Fixture.state3, Ok st)
       /\ Statistics.totalFiles st = 3%nat.
Proof.
  split; [reflexivity|].
  destruct (getStatistics_spec Fixture.state3 eq_refl)
    as (st & Hrun & _ & Hfiles & _).
  exists st. split; [exact Hrun | exact Hfiles].
Defined.

(** X15, witnessed on [a.txt] of the three files. *)
Lemma processFile_processed_witness :
  let fa := snd (Fixture.tracked "a.txt" "a1" 100) in
  processFileForReconstruction "/work/proj/a.txt" fa "/work/proj" "/out" None
    false Fixture.disk3
  = (Fixture.disk3_after_a, Ok (Processed "a.txt" None))
  /\ exists e,
       resolve_version fa None = Some e
       /\ fs_existsSync Fixture.disk3 (TimelineFile.getFileContentPath fa e) = true.
Proof.
  intros fa.
  assert (Hrun : processFileForReconstruction "/work/proj/a.txt" fa "/work/proj"
                   "/out" None false Fixture.disk3
                 = (Fixture.disk3_after_a, Ok (Processed "a.txt" None)))
    by (vm_compute; reflexivity).
  split; [exact Hrun|].
  destruct (processFile_processed _ _ _ _ _ _ _ _ _ _ Hrun)
    as (e & Hres & _ & _ & Hex & _).
  exists e. split; [exact Hres | exact Hex].
Defined.

(** X16, witnessed on the three files: two processed, one error. *)
Lemma reconstruct_loop_accounts_witness :
  exists w' acc,
    reconstruct_loop Fixture.index3 "/work/proj" "/out" None true empty_acc
      Fixture.disk3 = (w', Ok acc)
    /\ (List.length (processedFiles acc) + List.length (skippedFiles acc)
        + List.length (errors acc))%nat = 3%nat
    /\ List.length (metadataEntries acc) = List.length (processedFiles acc).
Proof.
  destruct (reconstruct_loop Fixture.index3 "/work/proj" "/out" None true
              empty_acc Fixture.disk3) as [w' [acc|e]] eqn:Hrun;
    [|vm_compute in Hrun; discriminate Hrun].
  exists w', acc. split; [reflexivity|].
  destruct (reconstruct_loop_accounts _ _ _ _ _ _ _ _ Hrun) as (Hc & _ & _ & Hm).
  split; [exact Hc | exact Hm].
Defined.

(** X17, witnessed: on Linux with nothing configured the constructor
    settles on the first default location, which is on the disk. *)
Lemma construct_path_exists_witness :
  exists ex,
    construct None None Fixture.store_disk = (Fixture.store_disk, Ok ex)
    /\ timelinePath ex = "/home/u/.config/Code/User/History"
    /\ fs_existsSync Fixture.store_disk (timelinePath ex) = true.
Proof.
  destruct (construct None None Fixture.store_disk) as [w' [ex|e]] eqn:Hrun;
    [|vm_compute in Hrun; discriminate Hrun].
  destruct (proj1 (construct_path_exists None None Fixture.store_disk w') ex Hrun)
    as (-> & Hex & _).
  exists ex. split; [reflexivity|]. split; [|exact Hex].
  vm_compute in Hrun. now injection Hrun as <-.
Defined.

(** X18, witnessed on the example store. *)
Lemma scanTimeline_idempotent_witness :
  exists s1 n,
    scanTimeline Fixture.store_state = (s1, Ok n)
    /\ scanTimeline s1 = (s1, Ok n).
Proof.
  destruct (scanTimeline Fixture.store_state) as [s1 [n|e]] eqn:Hrun;
    [|vm_compute in Hrun; discriminate Hrun].
  exists s1, n. split; [reflexivity|].
  exact (scanTimeline_idempotent _ _ _ Hrun).
Defined.

(** X19, witnessed on a default location of Windows. *)
Lemma expandEnvVars_variable_witness :
  Utils.no_percent "" = true
  /\ Utils.no_percent "APPDATA" = true
  /\ "APPDATA" <> ""
  /\ Utils.expandEnvVars "%APPDATA%/Code/User/History"
     = (Utils.env_value "APPDATA" ++ "/Code/User/History")%string.
Proof.
  split; [reflexivity|]. split; [reflexivity|]. split; [discriminate|].
  exact (proj1 (expandEnvVars_variable "" "APPDATA" "/Code/User/History"
                  eq_refl eq_refl ltac:(discriminate))).
Defined.

(** X20, witnessed on the three files at the instant 250: one file
    processed, one skipped, one in error. *)
Lemma reconstructDirectory_accounts_witness :
  filterByDirectory "/work/proj" Fixture.state3 = (Fixture.state3, Ok Fixture.index3)
  /\ exists s' r,
       reconstructDirectory "/work/proj" "/out" true (Some 250) Fixture.state3
       = (s', Ok r)
       /\ ReconstructionResult.skippedFiles r = Some 1%nat
       /\ (ReconstructionResult.filesProcessed r + 1
           + List.length (ReconstructionResult.errors r))%nat = 3%nat.
Proof.
  assert (Hf : filterByDirectory "/work/proj" Fixture.state3
               = (Fixture.state3, Ok Fixture.index3)) by (vm_compute; reflexivity).
  split; [exact Hf|].
  destruct (reconstructDirectory "/work/proj" "/out" true (Some 250) Fixture.state3)
    as [s' [r|e]] eqn:Hrun; [|vm_compute in Hrun; discriminate Hrun].
  exists s', r. split; [reflexivity|].
  destruct (reconstructDirectory_accounts _ _ _ _ _ _ _ _ _ Hf Hrun)
    as (_ & _ & k & Hk & Hsum).
  assert (Hone : ReconstructionResult.skippedFiles r = Some 1%nat).
  { vm_compute in Hrun. now injection Hrun as _ <-. }
  rewrite Hk in Hone. injection Hone as ->. split; [exact Hk | exact Hsum].
Defined.

End MoreScenarios.
